(** * The gas-optimization tracer of evm-tracer, and its specification

    A shallow embedding of [internal/tracer/gas_tracer.go]: the tracer's
    state is a record, every [Capture*] callback is a function on that
    record, Go's fixed-width integers are [Z] with their wrap-around written
    out, Go maps are [gmap]s, and the one place where Go leaves the result
    open (the iteration order of [range] over a map) is a parameter of the
    terminal pass, constrained by the step relation. *)

From Stdlib Require Import ZArith Lia.
From Stdlib Require Import Strings.Ascii Strings.String Strings.Byte.
From Stdlib Require Import Floats.SpecFloat.
From stdpp Require Import gmap strings list fin_maps sorting.

Local Open Scope Z_scope.

(** ** Machine integers *)

Module GoInt.

(** [uint64] arithmetic wraps modulo [2^64]. *)
Definition u64 (z : Z) : Z := z mod 2 ^ 64.

(** [int] is 64 bits wide on the platforms go-ethereum supports; its
    arithmetic wraps in two's complement. *)
Definition wrap_int (z : Z) : Z := (z + 2 ^ 63) mod 2 ^ 64 - 2 ^ 63.

Definition is_u64 (z : Z) : Prop := 0 <= z < 2 ^ 64.
Definition is_int (z : Z) : Prop := - 2 ^ 63 <= z < 2 ^ 63.

End GoInt.
Export GoInt.

(** ** Bytes, hashes, addresses and their hexadecimal form *)

#[global] Instance byte_eq_dec : EqDecision byte := Byte.byte_eq_dec.
#[global] Instance byte_countable : Countable byte :=
  inj_countable Byte.to_N Byte.of_N Byte.of_to_N.

Module Bytes.

Definition byte_of_Z (z : Z) : byte :=
  default x00 (Byte.of_N (Z.to_N (z mod 256))).

(** The [n] low-order bytes of [z], most significant first. *)
Fixpoint be_bytes (n : nat) (z : Z) : list byte :=
  match n with
  | O => []
  | S n' => byte_of_Z (Z.shiftr z (8 * Z.of_nat n')) :: be_bytes n' z
  end.

Fixpoint strip_zeros (b : list byte) : list byte :=
  match b with
  | x00 :: b' => strip_zeros b'
  | _ => b
  end.

(** [uint256.Int.Bytes]: big-endian, without leading zero bytes. *)
Definition uint256_Bytes (z : Z) : list byte := strip_zeros (be_bytes 32 z).

(** [big.Int.Bytes]: the absolute value, big-endian, without leading zero
    bytes.  The tracer only calls it on an [int64]. *)
Definition bigInt_Bytes (z : Z) : list byte :=
  strip_zeros (be_bytes 8 (Z.abs z)).

(** [SetBytes] of [common.Hash] and [common.Address]: keep the last
    [n] bytes, pad with zero bytes on the left. *)
Definition set_bytes (n : nat) (b : list byte) : list byte :=
  let b := drop (length b - n)%nat b in
  replicate (n - length b)%nat x00 ++ b.

Definition hex_digit (n : N) : ascii :=
  match n with
  | 0%N => "0" | 1%N => "1" | 2%N => "2" | 3%N => "3"
  | 4%N => "4" | 5%N => "5" | 6%N => "6" | 7%N => "7"
  | 8%N => "8" | 9%N => "9" | 10%N => "a" | 11%N => "b"
  | 12%N => "c" | 13%N => "d" | 14%N => "e" | _ => "f"
  end%char.

(** [common.Bytes2Hex], that is [hex.EncodeToString]: two lower-case
    digits per byte. *)
Fixpoint Bytes2Hex (b : list byte) : string :=
  match b with
  | [] => ""
  | x :: b' =>
      String (hex_digit (Byte.to_N x / 16))
        (String (hex_digit (Byte.to_N x mod 16)) (Bytes2Hex b'))
  end.

End Bytes.
Export Bytes.

(** [common.Hash] is [[32]byte], [common.Address] is [[20]byte]. *)
Abbreviation Hash := (list byte).
Abbreviation Address := (list byte).

Definition BytesToHash (b : list byte) : Hash := set_bytes 32 b.
Definition BytesToAddress (b : list byte) : Address := set_bytes 20 b.
Definition Hash_Hex (h : Hash) : string := "0x" +:+ Bytes2Hex h.
Definition zero_Address : Address := replicate 20 x00.

(** [formatPC]: the program counter goes through [int64] and [big.Int]. *)
Definition formatPC (pc : Z) : string :=
  "0x" +:+ Bytes2Hex (bigInt_Bytes (wrap_int pc)).

(** ** The data model of the tracer *)

(** [vm.OpCode].  The instructions the tracer's [switch] names are
    constructors of their own; every other instruction is [OTHER], carrying
    the mnemonic that [op.String()] gives it. *)
Inductive OpCode :=
  | SLOAD | SSTORE
  | MLOAD | MSTORE | MSTORE8
  | CALL | STATICCALL | DELEGATECALL | CALLCODE
  | CREATE | CREATE2
  | SELFDESTRUCT
  | JUMPDEST
  | LOG0 | LOG1 | LOG2 | LOG3 | LOG4
  | KECCAK256
  | OTHER (mnemonic : string).

Definition OpCode_String (op : OpCode) : string :=
  match op with
  | SLOAD => "SLOAD" | SSTORE => "SSTORE"
  | MLOAD => "MLOAD" | MSTORE => "MSTORE" | MSTORE8 => "MSTORE8"
  | CALL => "CALL" | STATICCALL => "STATICCALL"
  | DELEGATECALL => "DELEGATECALL" | CALLCODE => "CALLCODE"
  | CREATE => "CREATE" | CREATE2 => "CREATE2"
  | SELFDESTRUCT => "SELFDESTRUCT"
  | JUMPDEST => "JUMPDEST"
  | LOG0 => "LOG0" | LOG1 => "LOG1" | LOG2 => "LOG2"
  | LOG3 => "LOG3" | LOG4 => "LOG4"
  | KECCAK256 => "KECCAK256"
  | OTHER mnemonic => mnemonic
  end.

(** [vm.ScopeContext], as far as the tracer looks at it: the data stack
    (256-bit words, the top of the stack last, as in go-ethereum) and the
    memory. *)
Record ScopeContext := {
  Stack : list Z;
  Memory : list byte;
}.

(** [scope.Stack.Back(n)]: the [n]-th word from the top.  The tracer tests
    the result against [nil] to find out whether the operand is there, so an
    operand that is not on the stack is [None]. *)
Definition Back (st : list Z) (n : nat) : option Z :=
  if decide (n < length st)%nat then st !! (length st - n - 1)%nat else None.

(** [*uint256.Int.Uint64]: the low 64 bits. *)
Definition uint256_Uint64 (z : Z) : Z := u64 z.

(** A value stored in [map[string]interface{}]. *)
Inductive Value :=
  | VString (s : string)
  | VInt (n : Z)
  | VUint64 (n : Z)
  | VFloat64 (f : spec_float).

#[global] Instance spec_float_eq_dec : EqDecision spec_float.
Proof. solve_decision. Defined.
#[global] Instance Value_eq_dec : EqDecision Value.
Proof. solve_decision. Defined.

Record MemoryOperation := {
  mo_PC : Z;
  mo_Op : string;
  mo_Size : Z;
  mo_Gas : Z;
  mo_Depth : Z;
}.

Record CallOperation := {
  co_PC : Z;
  co_Op : string;
  co_To : Address;
  co_Value : option Z;
  co_Gas : Z;
  co_GasUsed : Z;
  co_Success : bool;
  co_Depth : Z;
}.

Record LoopDetection := {
  StartPC : Z;
  EndPC : Z;
  Iterations : Z;
  GasPerLoop : Z;
}.

Record ExpensiveOperation := {
  eo_PC : Z;
  eo_Op : string;
  eo_Gas : Z;
  eo_Description : string;
  eo_Depth : Z;
}.

Record Optimization := {
  Type_ : string;
  Severity : string;
  Description : string;
  Location : string;
  GasSavings : Z;
  Details : gmap string Value;
}.

Record GasOptimizationTracer := {
  StorageReads : gmap Hash Z;
  StorageWrites : gmap Hash Z;
  MemoryOps : list MemoryOperation;
  CallOps : list CallOperation;
  Loops : list LoopDetection;
  ExpensiveOps : list ExpensiveOperation;
  GasPerOpcode : gmap string Z;
  t_Stack : list (list byte);
  t_Memory : list byte;
  PC : Z;
  Gas : Z;
  Depth : Z;
  TotalGasUsed : Z;
  Optimizations : list Optimization;
}.

Definition NewGasOptimizationTracer : GasOptimizationTracer := {|
  StorageReads := ∅;
  StorageWrites := ∅;
  MemoryOps := [];
  CallOps := [];
  Loops := [];
  ExpensiveOps := [];
  GasPerOpcode := ∅;
  t_Stack := [];
  t_Memory := [];
  PC := 0;
  Gas := 0;
  Depth := 0;
  TotalGasUsed := 0;
  Optimizations := [];
|}.

(** Assignments to the fields of the tracer. *)
Module Assign.
Definition StorageReads' (v : gmap Hash Z) (t : GasOptimizationTracer) :=
  {| StorageReads := v; StorageWrites := StorageWrites t;
     MemoryOps := MemoryOps t; CallOps := CallOps t; Loops := Loops t;
     ExpensiveOps := ExpensiveOps t; GasPerOpcode := GasPerOpcode t;
     t_Stack := t_Stack t; t_Memory := t_Memory t; PC := PC t; Gas := Gas t;
     Depth := Depth t; TotalGasUsed := TotalGasUsed t;
     Optimizations := Optimizations t |}.
Definition StorageWrites' (v : gmap Hash Z) (t : GasOptimizationTracer) :=
  {| StorageReads := StorageReads t; StorageWrites := v;
     MemoryOps := MemoryOps t; CallOps := CallOps t; Loops := Loops t;
     ExpensiveOps := ExpensiveOps t; GasPerOpcode := GasPerOpcode t;
     t_Stack := t_Stack t; t_Memory := t_Memory t; PC := PC t; Gas := Gas t;
     Depth := Depth t; TotalGasUsed := TotalGasUsed t;
     Optimizations := Optimizations t |}.
Definition MemoryOps' (v : list MemoryOperation) (t : GasOptimizationTracer) :=
  {| StorageReads := StorageReads t; StorageWrites := StorageWrites t;
     MemoryOps := v; CallOps := CallOps t; Loops := Loops t;
     ExpensiveOps := ExpensiveOps t; GasPerOpcode := GasPerOpcode t;
     t_Stack := t_Stack t; t_Memory := t_Memory t; PC := PC t; Gas := Gas t;
     Depth := Depth t; TotalGasUsed := TotalGasUsed t;
     Optimizations := Optimizations t |}.
Definition CallOps' (v : list CallOperation) (t : GasOptimizationTracer) :=
  {| StorageReads := StorageReads t; StorageWrites := StorageWrites t;
     MemoryOps := MemoryOps t; CallOps := v; Loops := Loops t;
     ExpensiveOps := ExpensiveOps t; GasPerOpcode := GasPerOpcode t;
     t_Stack := t_Stack t; t_Memory := t_Memory t; PC := PC t; Gas := Gas t;
     Depth := Depth t; TotalGasUsed := TotalGasUsed t;
     Optimizations := Optimizations t |}.
Definition ExpensiveOps' (v : list ExpensiveOperation) (t : GasOptimizationTracer) :=
  {| StorageReads := StorageReads t; StorageWrites := StorageWrites t;
     MemoryOps := MemoryOps t; CallOps := CallOps t; Loops := Loops t;
     ExpensiveOps := v; GasPerOpcode := GasPerOpcode t;
     t_Stack := t_Stack t; t_Memory := t_Memory t; PC := PC t; Gas := Gas t;
     Depth := Depth t; TotalGasUsed := TotalGasUsed t;
     Optimizations := Optimizations t |}.
Definition GasPerOpcode' (v : gmap string Z) (t : GasOptimizationTracer) :=
  {| StorageReads := StorageReads t; StorageWrites := StorageWrites t;
     MemoryOps := MemoryOps t; CallOps := CallOps t; Loops := Loops t;
     ExpensiveOps := ExpensiveOps t; GasPerOpcode := v;
     t_Stack := t_Stack t; t_Memory := t_Memory t; PC := PC t; Gas := Gas t;
     Depth := Depth t; TotalGasUsed := TotalGasUsed t;
     Optimizations := Optimizations t |}.
Definition PC' (v : Z) (t : GasOptimizationTracer) :=
  {| StorageReads := StorageReads t; StorageWrites := StorageWrites t;
     MemoryOps := MemoryOps t; CallOps := CallOps t; Loops := Loops t;
     ExpensiveOps := ExpensiveOps t; GasPerOpcode := GasPerOpcode t;
     t_Stack := t_Stack t; t_Memory := t_Memory t; PC := v; Gas := Gas t;
     Depth := Depth t; TotalGasUsed := TotalGasUsed t;
     Optimizations := Optimizations t |}.
Definition Gas' (v : Z) (t : GasOptimizationTracer) :=
  {| StorageReads := StorageReads t; StorageWrites := StorageWrites t;
     MemoryOps := MemoryOps t; CallOps := CallOps t; Loops := Loops t;
     ExpensiveOps := ExpensiveOps t; GasPerOpcode := GasPerOpcode t;
     t_Stack := t_Stack t; t_Memory := t_Memory t; PC := PC t; Gas := v;
     Depth := Depth t; TotalGasUsed := TotalGasUsed t;
     Optimizations := Optimizations t |}.
Definition Depth' (v : Z) (t : GasOptimizationTracer) :=
  {| StorageReads := StorageReads t; StorageWrites := StorageWrites t;
     MemoryOps := MemoryOps t; CallOps := CallOps t; Loops := Loops t;
     ExpensiveOps := ExpensiveOps t; GasPerOpcode := GasPerOpcode t;
     t_Stack := t_Stack t; t_Memory := t_Memory t; PC := PC t; Gas := Gas t;
     Depth := v; TotalGasUsed := TotalGasUsed t;
     Optimizations := Optimizations t |}.
Definition TotalGasUsed' (v : Z) (t : GasOptimizationTracer) :=
  {| StorageReads := StorageReads t; StorageWrites := StorageWrites t;
     MemoryOps := MemoryOps t; CallOps := CallOps t; Loops := Loops t;
     ExpensiveOps := ExpensiveOps t; GasPerOpcode := GasPerOpcode t;
     t_Stack := t_Stack t; t_Memory := t_Memory t; PC := PC t; Gas := Gas t;
     Depth := Depth t; TotalGasUsed := v;
     Optimizations := Optimizations t |}.
Definition Optimizations' (v : list Optimization) (t : GasOptimizationTracer) :=
  {| StorageReads := StorageReads t; StorageWrites := StorageWrites t;
     MemoryOps := MemoryOps t; CallOps := CallOps t; Loops := Loops t;
     ExpensiveOps := ExpensiveOps t; GasPerOpcode := GasPerOpcode t;
     t_Stack := t_Stack t; t_Memory := t_Memory t; PC := PC t; Gas := Gas t;
     Depth := Depth t; TotalGasUsed := TotalGasUsed t;
     Optimizations := v |}.
End Assign.

(** Reading a Go map at a key it does not hold gives the zero value. *)
Definition at0 `{Countable K} (m : gmap K Z) (k : K) : Z := default 0 (m !! k).

(** [t.Optimizations = append(t.Optimizations, o)] *)
Definition report (o : Optimization) (t : GasOptimizationTracer) :=
  Assign.Optimizations' (Optimizations t ++ [o]) t.

(** ** float64 *)

Definition float64 (z : Z) : spec_float := binary_normalize 53 1024 z 0 false.
Definition f64_div : spec_float -> spec_float -> spec_float := SFdiv 53 1024.
Definition f64_mul : spec_float -> spec_float -> spec_float := SFmul 53 1024.

Definition f64_finite (f : spec_float) : bool :=
  match f with
  | S754_zero _ | S754_finite _ _ _ => true
  | S754_infinity _ | S754_nan => false
  end.

(** ** The callbacks *)

Section Tracer.

(** [common.Address.Hex] renders an address with the EIP-55 checksum,
    which is computed with Keccak-256 inside go-ethereum; the rendering
    is a parameter of the development. *)
Variable Address_Hex : Address -> string.

Definition CaptureStart (gas : Z) (t : GasOptimizationTracer) :=
  Assign.Depth' 0 (Assign.Gas' gas t).

(** The literals of [CaptureState] and [analyzePatterns]. *)
Definition redundant_sload (pc : Z) (keyHash : Hash) (count : Z) := {|
  Type_ := "redundant_sload";
  Severity := "high";
  Description := "Multiple SLOAD operations for the same storage slot";
  Location := formatPC pc;
  GasSavings := u64 (u64 (u64 count - 1) * 100);
  Details := {[ "storage_key" := VString (Hash_Hex keyHash);
                "read_count" := VInt count ]};
|}.

Definition gas_forwarding (pc : Z) (opName : string) (to : Address) := {|
  Type_ := "gas_forwarding";
  Severity := "low";
  Description := "Forwarding all available gas to external call";
  Location := formatPC pc;
  GasSavings := 0;
  Details := {[ "call_type" := VString opName;
                "to" := VString (Address_Hex to) ]};
|}.

Definition memory_expansion (pc : Z) (memSize : Z) := {|
  Type_ := "memory_expansion";
  Severity := "medium";
  Description := "Large memory expansion detected";
  Location := formatPC pc;
  GasSavings := 0;
  Details := {[ "memory_size" := VUint64 memSize ]};
|}.

Definition expensive_opcode (opcode : string) (gasUsed total : Z) := {|
  Type_ := "expensive_opcode";
  Severity := "medium";
  Description := "Opcode consumes significant gas";
  Location := "multiple";
  GasSavings := 0;
  Details := {[ "opcode" := VString opcode;
                "gas_used" := VUint64 gasUsed;
                "percentage" :=
                  VFloat64 (f64_mul (f64_div (float64 gasUsed) (float64 total))
                                    (float64 100)) ]};
|}.

Definition multiple_calls (n : Z) := {|
  Type_ := "multiple_calls";
  Severity := "medium";
  Description := "Multiple external calls detected - consider batching";
  Location := "multiple";
  GasSavings := u64 (u64 n * 2100);
  Details := {[ "call_count" := VInt n ]};
|}.

Definition expensive (pc : Z) (opName : string) (cost : Z)
    (description : string) (depth : Z) := {|
  eo_PC := pc; eo_Op := opName; eo_Gas := cost;
  eo_Description := description; eo_Depth := depth;
|}.

(** The [switch op] of [CaptureState]. *)
Definition track_operation (pc : Z) (op : OpCode) (opName : string)
    (gas cost : Z) (scope : ScopeContext) (depth : Z)
    (t : GasOptimizationTracer) : GasOptimizationTracer :=
  match op with
  | SLOAD =>
      match Back (Stack scope) 0 with
      | Some key =>
          let keyHash := BytesToHash (uint256_Bytes key) in
          let t := Assign.StorageReads'
                     (<[keyHash := wrap_int (at0 (StorageReads t) keyHash + 1)]>
                        (StorageReads t)) t in
          if 2 <? at0 (StorageReads t) keyHash
          then report (redundant_sload pc keyHash (at0 (StorageReads t) keyHash)) t
          else t
      | None => t
      end
  | SSTORE =>
      match Back (Stack scope) 0 with
      | Some key =>
          let keyHash := BytesToHash (uint256_Bytes key) in
          Assign.StorageWrites'
            (<[keyHash := wrap_int (at0 (StorageWrites t) keyHash + 1)]>
               (StorageWrites t)) t
      | None => t
      end
  | MLOAD | MSTORE | MSTORE8 =>
      Assign.MemoryOps'
        (MemoryOps t ++
           [{| mo_PC := pc; mo_Op := opName;
               mo_Size := u64 (Z.of_nat (length (Memory scope)));
               mo_Gas := cost; mo_Depth := depth |}]) t
  | CALL | STATICCALL | DELEGATECALL | CALLCODE =>
      let callOp (to : Address) :=
        {| co_PC := pc; co_Op := opName; co_To := to; co_Value := None;
           co_Gas := gas; co_GasUsed := cost; co_Success := false;
           co_Depth := depth |} in
      match Back (Stack scope) 0, Back (Stack scope) 1 with
      | Some gasLimit, Some addr =>
          let to := BytesToAddress (uint256_Bytes addr) in
          let t :=
            if uint256_Uint64 gasLimit =? u64 (gas - gas / 64)
            then report (gas_forwarding pc opName to) t
            else t in
          Assign.CallOps' (CallOps t ++ [callOp to]) t
      | _, _ =>
          Assign.CallOps' (CallOps t ++ [callOp zero_Address]) t
      end
  | CREATE | CREATE2 =>
      Assign.ExpensiveOps'
        (ExpensiveOps t ++
           [expensive pc opName cost "Contract creation is expensive" depth]) t
  | SELFDESTRUCT =>
      Assign.ExpensiveOps'
        (ExpensiveOps t ++
           [expensive pc opName cost "SELFDESTRUCT is very expensive" depth]) t
  | JUMPDEST => t
  | LOG0 | LOG1 | LOG2 | LOG3 | LOG4 =>
      if 1000 <? cost
      then Assign.ExpensiveOps'
             (ExpensiveOps t ++
                [expensive pc opName cost "Large LOG operation" depth]) t
      else t
  | KECCAK256 =>
      if 500 <? cost
      then Assign.ExpensiveOps'
             (ExpensiveOps t ++
                [expensive pc opName cost "Expensive KECCAK256 operation" depth]) t
      else t
  | OTHER _ => t
  end.

(** The memory check that ends [CaptureState]. *)
Definition track_memory (pc : Z) (scope : ScopeContext)
    (t : GasOptimizationTracer) : GasOptimizationTracer :=
  if 0 <? Z.of_nat (length (Memory scope)) then
    let memSize := u64 (Z.of_nat (length (Memory scope))) in
    if 10000 <? memSize then report (memory_expansion pc memSize) t else t
  else t.

Definition CaptureState (pc : Z) (op : OpCode) (gas cost : Z)
    (scope : ScopeContext) (depth : Z) (t : GasOptimizationTracer)
    : GasOptimizationTracer :=
  let t := Assign.PC' pc t in
  let t := Assign.Gas' gas t in
  let t := Assign.Depth' depth t in
  let t := Assign.TotalGasUsed' (u64 (TotalGasUsed t + cost)) t in
  let opName := OpCode_String op in
  let t := Assign.GasPerOpcode'
             (<[opName := u64 (at0 (GasPerOpcode t) opName + cost)]>
                (GasPerOpcode t)) t in
  let t := track_operation pc op opName gas cost scope depth t in
  track_memory pc scope t.

Definition CaptureEnter (t : GasOptimizationTracer) :=
  Assign.Depth' (wrap_int (Depth t + 1)) t.

Definition CaptureExit (gasUsed : Z) (t : GasOptimizationTracer) :=
  let t := Assign.Depth' (wrap_int (Depth t - 1)) t in
  Assign.TotalGasUsed' (u64 (TotalGasUsed t + gasUsed)) t.

Definition CaptureFault (t : GasOptimizationTracer) := t.

Definition CaptureTxStart (gasLimit : Z) (t : GasOptimizationTracer) :=
  Assign.Gas' gasLimit t.

Definition CaptureTxEnd (t : GasOptimizationTracer) := t.

(** One iteration of [for opcode, gasUsed := range t.GasPerOpcode]. *)
Definition analyze_opcode (t : GasOptimizationTracer) (entry : string * Z) :=
  let '(opcode, gasUsed) := entry in
  if TotalGasUsed t / 10 <? gasUsed
  then report (expensive_opcode opcode gasUsed (TotalGasUsed t)) t
  else t.

(** [analyzePatterns].  Go does not fix the order in which [range] visits
    the entries of a map; [visit] is the order of this run of the loop
    (see [map_range] for what it may be). *)
Definition analyzePatterns (visit : list (string * Z))
    (t : GasOptimizationTracer) : GasOptimizationTracer :=
  let t := foldl analyze_opcode t visit in
  if 5 <? Z.of_nat (length (CallOps t))
  then report (multiple_calls (Z.of_nat (length (CallOps t)))) t
  else t.

Definition CaptureEnd (visit : list (string * Z)) (gasUsed : Z)
    (t : GasOptimizationTracer) : GasOptimizationTracer :=
  let t := Assign.TotalGasUsed' gasUsed t in
  analyzePatterns visit t.

Definition GetOptimizations (t : GasOptimizationTracer) := Optimizations t.

End Tracer.

(** ** Serialization of the report *)

(** The document that [encoding/json] writes, as a tree: the members of an
    object are in the order in which the encoder writes them. *)
#[warnings="-register-all"]
Inductive Json :=
  | JNumber (n : Z)
  | JFloat (f : spec_float)
  | JString (s : string)
  | JArray (items : list Json)
  | JObject (members : list (string * Json)).

(** [json.UnsupportedValueError]: the encoder refuses a float that is
    infinite or not a number. *)
Inductive MarshalError :=
  | UnsupportedValueError (f : spec_float).

Module Encode.

Definition result (A : Type) : Type := A + MarshalError.

Definition bind {A B} (r : result A) (k : A -> result B) : result B :=
  match r with
  | inl a => k a
  | inr e => inr e
  end.

Fixpoint traverse {A B} (f : A -> result B) (l : list A) : result (list B) :=
  match l with
  | [] => inl []
  | a :: l' => bind (f a) (fun b => bind (traverse f l') (fun bs => inl (b :: bs)))
  end.

(** The encoder writes the entries of a map sorted by key. *)
Definition key_le {V} (a b : string * V) : Prop := String.leb a.1 b.1.

#[global] Instance key_le_dec {V} (a b : string * V) : Decision (key_le a b).
Proof. unfold key_le. apply _. Defined.

Definition sorted_entries {V} (m : gmap string V) : list (string * V) :=
  merge_sort key_le (map_to_list m).

Definition object {V} (enc : V -> result Json) (m : gmap string V) : result Json :=
  bind (traverse (fun kv => bind (enc kv.2) (fun j => inl (kv.1, j)))
          (sorted_entries m))
       (fun members => inl (JObject members)).

Definition value (v : Value) : result Json :=
  match v with
  | VString s => inl (JString s)
  | VInt n => inl (JNumber n)
  | VUint64 n => inl (JNumber n)
  | VFloat64 f => if f64_finite f then inl (JFloat f) else inr (UnsupportedValueError f)
  end.

(** A struct is written field by field, in the order of its declaration;
    [Optimization] has no field tags. *)
Definition optimization (o : Optimization) : result Json :=
  bind (object value (Details o)) (fun details =>
  inl (JObject [ ("Type", JString (Type_ o));
                 ("Severity", JString (Severity o));
                 ("Description", JString (Description o));
                 ("Location", JString (Location o));
                 ("GasSavings", JNumber (GasSavings o));
                 ("Details", details) ])).

End Encode.

(** The values of the [map[string]interface{}] that [GetReport] builds. *)
Inductive ReportValue :=
  | RUint64 (n : Z)
  | RInt (n : Z)
  | ROptimizations (l : list Optimization)
  | RGasPerOpcode (m : gmap string Z).

Definition encode_report_value (v : ReportValue) : Encode.result Json :=
  match v with
  | RUint64 n => inl (JNumber n)
  | RInt n => inl (JNumber n)
  | ROptimizations l =>
      Encode.bind (Encode.traverse Encode.optimization l)
        (fun items => inl (JArray items))
  | RGasPerOpcode m => Encode.object (fun n => inl (JNumber n)) m
  end.

(** [json.MarshalIndent(report, "", "  ")] on the report map. *)
Definition MarshalIndent (report : gmap string ReportValue) : Encode.result Json :=
  Encode.object encode_report_value report.

Definition report_map (t : GasOptimizationTracer) : gmap string ReportValue :=
  <["total_gas_used" := RUint64 (TotalGasUsed t)]>
  (<["storage_reads" := RInt (Z.of_nat (size (StorageReads t)))]>
  (<["storage_writes" := RInt (Z.of_nat (size (StorageWrites t)))]>
  (<["memory_operations" := RInt (Z.of_nat (length (MemoryOps t)))]>
  (<["call_operations" := RInt (Z.of_nat (length (CallOps t)))]>
  (<["expensive_ops" := RInt (Z.of_nat (length (ExpensiveOps t)))]>
  (<["optimizations" := ROptimizations (Optimizations t)]>
  (<["gas_by_opcode" := RGasPerOpcode (GasPerOpcode t)]> ∅))))))).

(** [GetReport]: the document, or the encoder's error. *)
Definition GetReport (t : GasOptimizationTracer) : Encode.result Json :=
  MarshalIndent (report_map t).

(** The names of the fields of a document, in the order they are written. *)
Definition field_names (j : Json) : list string :=
  match j with
  | JObject members => members.*1
  | _ => []
  end.

(** ** Traces *)

(** The events the driver delivers, with the arguments the tracer reads. *)
Inductive Event :=
  | EvStart (gas : Z)
  | EvState (pc : Z) (op : OpCode) (gas cost : Z) (scope : ScopeContext) (depth : Z)
  | EvEnter
  | EvExit (gasUsed : Z)
  | EvFault
  | EvEnd (gasUsed : Z)
  | EvTxStart (gasLimit : Z)
  | EvTxEnd.

(** What [range] over a map may do: visit every entry once, in any order. *)
Definition map_range (m : gmap string Z) (visit : list (string * Z)) : Prop :=
  visit ≡ₚ map_to_list m.

Section Run.

Variable Address_Hex : Address -> string.

(** The callback an event invokes; [visit] is used by [EvEnd] alone. *)
Definition dispatch (visit : list (string * Z)) (e : Event)
    (t : GasOptimizationTracer) : GasOptimizationTracer :=
  match e with
  | EvStart gas => CaptureStart gas t
  | EvState pc op gas cost scope depth =>
      CaptureState Address_Hex pc op gas cost scope depth t
  | EvEnter => CaptureEnter t
  | EvExit gasUsed => CaptureExit gasUsed t
  | EvFault => CaptureFault t
  | EvEnd gasUsed => CaptureEnd visit gasUsed t
  | EvTxStart gasLimit => CaptureTxStart gasLimit t
  | EvTxEnd => CaptureTxEnd t
  end.

Inductive step (t : GasOptimizationTracer) (e : Event)
    : GasOptimizationTracer -> Prop :=
  | step_intro visit :
      map_range (GasPerOpcode t) visit -> step t e (dispatch visit e t).

Inductive exec : GasOptimizationTracer -> list Event -> GasOptimizationTracer -> Prop :=
  | exec_nil t : exec t [] t
  | exec_cons t e t' evs t'' :
      step t e t' -> exec t' evs t'' -> exec t (e :: evs) t''.

(** A run in which every [range] happens to visit the map in the order
    [map_to_list] lists it: one of the runs [exec] allows. *)
Definition run (evs : list Event) (t : GasOptimizationTracer)
    : GasOptimizationTracer :=
  foldl (fun t e => dispatch (map_to_list (GasPerOpcode t)) e t) t evs.

End Run.

(** ** Vocabulary of the properties *)

(** The slot a storage read resolves, when its operand is there. *)
Definition sload_slot (e : Event) : option Hash :=
  match e with
  | EvState _ SLOAD _ _ scope _ =>
      BytesToHash ∘ uint256_Bytes <$> Back (Stack scope) 0
  | _ => None
  end.

Definition reads_slot (k : Hash) (e : Event) : bool :=
  bool_decide (sload_slot e = Some k).

(** The program counters of the reads of slot [k], in trace order. *)
Definition read_pcs (k : Hash) (evs : list Event) : list Z :=
  omap (fun e => match e with
                 | EvState pc _ _ _ _ _ => if reads_slot k e then Some pc else None
                 | _ => None
                 end) evs.

Definition is_call (op : OpCode) : bool :=
  match op with
  | CALL | STATICCALL | DELEGATECALL | CALLCODE => true
  | _ => false
  end.

Definition is_call_step (e : Event) : bool :=
  match e with
  | EvState _ op _ _ _ _ => is_call op
  | _ => false
  end.

Definition has_type (ty : string) (o : Optimization) : bool :=
  bool_decide (Type_ o = ty).

(** A redundant-read Finding about slot [k]. *)
Definition redundant_read_of (k : Hash) (o : Optimization) : bool :=
  has_type "redundant_sload" o
  && bool_decide (Details o !! "storage_key" = Some (VString (Hash_Hex k))).

(** The redundant-read Finding that the specification describes for the
    [n]-th read of slot [k], made at program counter [pc]: savings
    [(n - 1) * 100], in plain arithmetic. *)
Definition nth_read_finding (k : Hash) (pc n : Z) : Optimization := {|
  Type_ := "redundant_sload";
  Severity := "high";
  Description := "Multiple SLOAD operations for the same storage slot";
  Location := formatPC pc;
  GasSavings := (n - 1) * 100;
  Details := {[ "storage_key" := VString (Hash_Hex k);
                "read_count" := VInt n ]};
|}.

(** The Findings that reads number [c + 1], [c + 2], ... of slot [k] leave,
    given the program counters of those reads. *)
Fixpoint reads_from (k : Hash) (c : Z) (pcs : list Z) : list Optimization :=
  match pcs with
  | [] => []
  | pc :: pcs' =>
      (if 2 <? c + 1 then [nth_read_finding k pc (c + 1)] else [])
        ++ reads_from k (c + 1) pcs'
  end.

(** The batch-calls Finding that the specification describes for [n]
    recorded calls: savings [n * 2100], in plain arithmetic. *)
Definition batch_calls_finding (n : Z) : Optimization := {|
  Type_ := "multiple_calls";
  Severity := "medium";
  Description := "Multiple external calls detected - consider batching";
  Location := "multiple";
  GasSavings := n * 2100;
  Details := {[ "call_count" := VInt n ]};
|}.

(** The Findings of one terminal pass: the hot opcodes, in the order the
    pass visits the map, then the batch of calls. *)
Definition hot_opcodes (total : Z) (visit : list (string * Z)) : list Optimization :=
  (fun e => expensive_opcode e.1 e.2 total) <$> filter (fun e => total / 10 < e.2) visit.

Definition batch_calls (n : nat) : list Optimization :=
  if 5 <? Z.of_nat n then [multiple_calls (Z.of_nat n)] else [].

(** The Finding with which [CaptureState] ends, if any. *)
Definition memory_findings (pc : Z) (scope : ScopeContext) : list Optimization :=
  let memSize := u64 (Z.of_nat (length (Memory scope))) in
  if (0 <? Z.of_nat (length (Memory scope))) && (10000 <? memSize)
  then [memory_expansion pc memSize] else [].




(** Decoding of [Bytes2Hex]. *)
Definition unhex_digit (c : ascii) : N :=
  match c with
  | "0" => 0 | "1" => 1 | "2" => 2 | "3" => 3 | "4" => 4 | "5" => 5
  | "6" => 6 | "7" => 7 | "8" => 8 | "9" => 9 | "a" => 10 | "b" => 11
  | "c" => 12 | "d" => 13 | "e" => 14 | _ => 15
  end%char%N.

Fixpoint Hex2Bytes (s : string) : list byte :=
  match s with
  | String hi (String lo s') =>
      default x00 (Byte.of_N (unhex_digit hi * 16 + unhex_digit lo)) :: Hex2Bytes s'
  | _ => []
  end.

(** A float that is finite and not zero, or infinite, with sign [sx]. *)
Definition signed_nonzero (sx : bool) (f : spec_float) : Prop :=
  match f with
  | S754_finite s _ _ | S754_infinity s => s = sx
  | _ => False
  end.

(** The order of the fields in the interface specification of the report,
    and the order in which the encoder writes them. *)
Definition interface_order : list string :=
  [ "total_gas_used"; "storage_reads"; "storage_writes"; "memory_operations";
    "call_operations"; "expensive_ops"; "optimizations"; "gas_by_opcode" ].

Definition encoder_order : list string :=
  [ "call_operations"; "expensive_ops"; "gas_by_opcode"; "memory_operations";
    "optimizations"; "storage_reads"; "storage_writes"; "total_gas_used" ].

(** An address rendering for the examples: lower-case hexadecimal, without
    the checksum capitals. *)
Definition plain_hex (a : Address) : string := "0x" +:+ Bytes2Hex a.



(** The running aggregates of a tracer. *)
Definition aggregates (t : GasOptimizationTracer) :=
  (StorageReads t, StorageWrites t, MemoryOps t, CallOps t, ExpensiveOps t,
   GasPerOpcode t, Depth t, TotalGasUsed t).

(** The events that the specification wants ignored once a trace has
    ended. *)
Definition late (e : Event) : Prop :=
  match e with
  | EvState _ _ _ _ _ _ | EvEnter | EvExit _ => True
  | _ => False
  end.

(** "Events delivered after Ended are rejected or ignored." *)
Definition late_events_ignored (Address_Hex : Address -> string) : Prop :=
  forall evs gasUsed evs' t e t',
    exec Address_Hex NewGasOptimizationTracer (evs ++ EvEnd gasUsed :: evs') t ->
    late e ->
    step Address_Hex t e t' ->
    aggregates t' = aggregates t /\ Optimizations t' = Optimizations t.


(** "The serialized report keeps the field order of the interface
    specification." *)
Definition interface_order_kept : Prop :=
  forall t doc, GetReport t = inl doc -> field_names doc = interface_order.

(** ** Example traces *)

Definition empty_scope : ScopeContext := {| Stack := []; Memory := [] |}.

(** A scope whose stack holds one word, the slot of a storage access. *)
Definition slot_scope (key : Z) : ScopeContext := {| Stack := [key]; Memory := [] |}.

(** A scope for a call: the forwarded gas on top of the callee. *)
Definition call_scope (addr gasLimit : Z) : ScopeContext :=
  {| Stack := [addr; gasLimit]; Memory := [] |}.

Definition slot_1234 : Hash := BytesToHash (uint256_Bytes 0x1234).

(** Three reads of slot [0x1234], with a write and a read of another slot
    between them. *)
Definition three_reads : list Event :=
  [ EvStart 100000;
    EvState 1 SLOAD 99000 2100 (slot_scope 0x1234) 1;
    EvState 2 SLOAD 96900 100 (slot_scope 0x1234) 1;
    EvState 3 SSTORE 96800 5000 (slot_scope 0x1234) 1;
    EvState 4 SLOAD 91800 2100 (slot_scope 0x99) 1;
    EvState 7 SLOAD 89700 100 (slot_scope 0x1234) 1 ].

(** Six external calls. *)
Definition six_calls : list Event :=
  [ EvStart 100000;
    EvState 1 CALL 90000 700 (call_scope 0xaa 5000) 1;
    EvState 2 STATICCALL 80000 700 (call_scope 0xbb 5000) 1;
    EvState 3 CALL 70000 700 (call_scope 0xcc 5000) 1;
    EvState 4 DELEGATECALL 60000 700 (call_scope 0xdd 5000) 1;
    EvState 5 CALLCODE 50000 700 (call_scope 0xee 5000) 1;
    EvState 6 CALL 40000 700 (call_scope 0xff 5000) 1 ].

(** A read and a write of equal cost, each above a tenth of the total. *)
Definition two_hot_opcodes : list Event :=
  [ EvState 0 SLOAD 1000 100 (slot_scope 1) 1;
    EvState 1 SSTORE 900 100 (slot_scope 1) 1 ].

(** A step that costs gas, in a trace that ends with no gas used. *)
Definition costly_step : list Event := [ EvState 0 SLOAD 1000 100 empty_scope 1 ].

(** ** Vocabulary of further properties *)

(** The slot a storage write resolves, when its operand is there. *)
Definition sstore_slot (e : Event) : option Hash :=
  match e with
  | EvState _ SSTORE _ _ scope _ =>
      BytesToHash ∘ uint256_Bytes <$> Back (Stack scope) 0
  | _ => None
  end.

Definition writes_slot (k : Hash) (e : Event) : bool :=
  bool_decide (sstore_slot e = Some k).

(** What a step charges to the mnemonic [name]. *)
Definition charge (name : string) (e : Event) : Z :=
  match e with
  | EvState _ op _ cost _ _ => if decide (OpCode_String op = name) then cost else 0
  | _ => 0
  end.

(** Enter and exit events, properly nested. *)
Inductive nested : list Event -> Prop :=
  | nested_nil : nested []
  | nested_frame inner gasUsed rest :
      nested inner -> nested rest ->
      nested (EvEnter :: inner ++ EvExit gasUsed :: rest).

(** The memory size a step reports, and the expensive operation it is, if
    any. *)
Definition memory_size (e : Event) : Z :=
  match e with
  | EvState _ _ _ _ scope _ => Z.of_nat (length (Memory scope))
  | _ => 0
  end.

Definition large_memory (e : Event) : option Optimization :=
  match e with
  | EvState pc _ _ _ scope _ =>
      if 10000 <? Z.of_nat (length (Memory scope))
      then Some (memory_expansion pc (Z.of_nat (length (Memory scope))))
      else None
  | _ => None
  end.

Definition expensive_step (e : Event) : option ExpensiveOperation :=
  match e with
  | EvState pc op _ cost _ depth =>
      match op with
      | CREATE | CREATE2 =>
          Some (expensive pc (OpCode_String op) cost "Contract creation is expensive" depth)
      | SELFDESTRUCT =>
          Some (expensive pc (OpCode_String op) cost "SELFDESTRUCT is very expensive" depth)
      | LOG0 | LOG1 | LOG2 | LOG3 | LOG4 =>
          if 1000 <? cost
          then Some (expensive pc (OpCode_String op) cost "Large LOG operation" depth)
          else None
      | KECCAK256 =>
          if 500 <? cost
          then Some (expensive pc (OpCode_String op) cost "Expensive KECCAK256 operation" depth)
          else None
      | _ => None
      end
  | _ => None
  end.

(** Further example traces. *)

(** Two frames, the first with a frame inside. *)
Definition nested_frames : list Event :=
  [ EvEnter; EvEnter; EvExit 100; EvExit 300; EvEnter; EvExit 50 ].

(** Steps over memories of 10000, 10001 and 20000 bytes. *)
Definition memory_steps : list Event :=
  [ EvState 1 MSTORE 9000 3 {| Stack := []; Memory := replicate (Z.to_nat 10000) x00 |} 1;
    EvState 2 MSTORE 8000 3 {| Stack := []; Memory := replicate (Z.to_nat 10001) x00 |} 1;
    EvState 3 (OTHER "ADD") 7000 3 {| Stack := []; Memory := replicate (Z.to_nat 20000) x00 |} 1 ].

(** Logs and hashes at and above their thresholds, and a creation. *)
Definition costly_steps : list Event :=
  [ EvState 1 LOG1 9000 1000 empty_scope 1;
    EvState 2 LOG2 8000 1001 empty_scope 1;
    EvState 3 KECCAK256 7000 500 empty_scope 1;
    EvState 4 KECCAK256 6000 501 empty_scope 1;
    EvState 5 CREATE2 5000 32000 empty_scope 2;
    EvState 6 JUMPDEST 4000 1 empty_scope 2 ].

(** The number a big-endian byte string denotes. *)
Fixpoint be_value (b : list byte) : Z :=
  match b with
  | [] => 0
  | x :: b' => Z.of_N (Byte.to_N x) * 256 ^ Z.of_nat (length b') + be_value b'
  end.

(** The number a location such as ["0x2a"] denotes: the digits after the
    two-character prefix, decoded. *)
Definition location_value (s : string) : Z :=
  match s with
  | String _ (String _ digits) => be_value (Hex2Bytes digits)
  | _ => 0
  end.

(** A Finding that the encoder accepts: every float among its details is
    finite. *)
Definition encodable (o : Optimization) : Prop :=
  forall k f, Details o !! k = Some (VFloat64 f) -> f64_finite f = true.

Definition is_end (e : Event) : bool :=
  match e with
  | EvEnd _ => true
  | _ => false
  end.

(** The member of an object with a given name. *)
Definition member (name : string) (j : Json) : option Json :=
  match j with
  | JObject members =>
      snd <$> (snd <$> list_find (fun kv => kv.1 = name) members)
  | _ => None
  end.

(** The records a step leaves: of a memory operation, and of a call (the
    callee is resolved when both operands are on the stack). *)
Definition memory_step (e : Event) : option MemoryOperation :=
  match e with
  | EvState pc op _ cost scope depth =>
      match op with
      | MLOAD | MSTORE | MSTORE8 =>
          Some {| mo_PC := pc; mo_Op := OpCode_String op;
                  mo_Size := u64 (Z.of_nat (length (Memory scope)));
                  mo_Gas := cost; mo_Depth := depth |}
      | _ => None
      end
  | _ => None
  end.




Section Emitted.
Variable Address_Hex : Address -> string.



End Emitted.

(** * Properties *)

(** Machine arithmetic and byte conversions are reasoned about through
    their lemmas; simplification leaves them folded. *)
#[global] Arguments u64 : simpl never.
#[global] Arguments wrap_int : simpl never.
#[global] Arguments uint256_Bytes : simpl never.
#[global] Arguments bigInt_Bytes : simpl never.
#[global] Arguments BytesToHash : simpl never.
#[global] Arguments BytesToAddress : simpl never.
#[global] Arguments Hash_Hex : simpl never.
#[global] Arguments formatPC : simpl never.
#[global] Arguments float64 : simpl never.
#[global] Arguments f64_div : simpl never.
#[global] Arguments f64_mul : simpl never.

(** ** Machine integers *)

Module GoIntFacts.

Lemma u64_id z : is_u64 z -> u64 z = z.
Proof. unfold is_u64, u64. intros H. apply Z.mod_small. lia. Qed.

Lemma u64_range z : is_u64 (u64 z).
Proof. unfold is_u64, u64. apply Z.mod_pos_bound. lia. Qed.

Lemma wrap_int_id z : is_int z -> wrap_int z = z.
Proof. unfold is_int, wrap_int. intros H. rewrite Z.mod_small by lia. lia. Qed.

Lemma wrap_int_range z : is_int (wrap_int z).
Proof.
  unfold is_int, wrap_int.
  pose proof (Z.mod_pos_bound (z + 2 ^ 63) (2 ^ 64)). lia.
Qed.

Lemma wrap_int_add_l a b : wrap_int (wrap_int a + b) = wrap_int (a + b).
Proof.
  unfold wrap_int.
  replace ((a + 2 ^ 63) mod 2 ^ 64 - 2 ^ 63 + b + 2 ^ 63)
    with ((a + 2 ^ 63) mod 2 ^ 64 + b) by lia.
  rewrite Zplus_mod_idemp_l. do 2 f_equal. lia.
Qed.

Lemma u64_add_l a b : u64 (u64 a + b) = u64 (a + b).
Proof. unfold u64. apply Zplus_mod_idemp_l. Qed.

End GoIntFacts.
Export GoIntFacts.

(** ** Hexadecimal rendering is injective *)

Lemma Hex2Bytes_Bytes2Hex b : Hex2Bytes (Bytes2Hex b) = b.
Proof.
  induction b as [|x b IH]; [reflexivity|].
  cbn [Bytes2Hex Hex2Bytes]. rewrite IH. f_equal.
  destruct x; reflexivity.
Qed.

Lemma Hash_Hex_inj h1 h2 : Hash_Hex h1 = Hash_Hex h2 -> h1 = h2.
Proof.
  unfold Hash_Hex. intros H.
  assert (Bytes2Hex h1 = Bytes2Hex h2) as E by (cbn in H;  injection H; auto).
  apply (f_equal Hex2Bytes) in E. by rewrite !Hex2Bytes_Bytes2Hex in E.
Qed.

(** ** float64 *)

Module Float64Facts.

Lemma digits2_pos_lower p : 2 ^ (Z.pos (digits2_pos p) - 1) <= Z.pos p.
Proof.
  induction p as [p IH|p IH|]; cbn [digits2_pos]; [| |cbn; lia].
  all: rewrite Pos2Z.inj_succ;
    replace (Z.succ (Z.pos (digits2_pos p)) - 1)
      with (Z.succ (Z.pos (digits2_pos p) - 1)) by lia;
    rewrite Z.pow_succ_r by lia; lia.
Qed.

Lemma shr_1_m mrs : 0 <= shr_m mrs -> shr_m (shr_1 mrs) = shr_m mrs / 2.
Proof.
  destruct mrs as [m r s]. cbn [shr_m]. intros Hm.
  destruct m as [|[p|p|]|p]; cbn [shr_1 shr_m]; try lia; try reflexivity.
  - apply (Z.div_unique _ 2 _ 1); lia.
  - apply (Z.div_unique _ 2 _ 0); lia.
Qed.

Lemma iter_shr_1_m q mrs :
  0 <= shr_m mrs -> shr_m (SpecFloat.iter_pos shr_1 q mrs) = shr_m mrs / 2 ^ Z.pos q.
Proof.
  revert mrs. induction q as [q IH|q IH|]; intros mrs Hm; cbn [SpecFloat.iter_pos].
  - assert (0 <= shr_m (shr_1 mrs)) as H1
      by (rewrite shr_1_m by done; apply Z.div_pos; lia).
    assert (0 <= shr_m (SpecFloat.iter_pos shr_1 q (shr_1 mrs))) as H2
      by (rewrite IH by done; apply Z.div_pos; lia).
    rewrite IH, IH, shr_1_m by done.
    rewrite !Z.div_div by lia. f_equal.
    replace (Z.pos q~1) with (1 + Z.pos q + Z.pos q) by lia.
    rewrite !Z.pow_add_r by lia. change (2 ^ 1) with 2. ring.
  - assert (0 <= shr_m (SpecFloat.iter_pos shr_1 q mrs)) as H2
      by (rewrite IH by done; apply Z.div_pos; lia).
    rewrite IH, IH by done. rewrite Z.div_div by lia. f_equal.
    replace (Z.pos q~0) with (Z.pos q + Z.pos q) by lia.
    rewrite Z.pow_add_r by lia. reflexivity.
  - rewrite shr_1_m by done. reflexivity.
Qed.

Lemma shr_record_of_loc_m m l : shr_m (shr_record_of_loc m l) = m.
Proof. by destruct l as [|[]]. Qed.

(** Above the subnormal range, rounding keeps a positive mantissa
    positive. *)
Lemma shr_fexp_pos p e l :
  -1021 <= e ->
  0 < shr_m (shr_fexp 53 1024 (Z.pos p) e l).1
  /\ e <= (shr_fexp 53 1024 (Z.pos p) e l).2.
Proof.
  intros He. unfold shr_fexp, shr, fexp, emin. cbn [Zdigits2].
  pose proof (digits2_pos_lower p) as Hd.
  set (d := Z.pos (digits2_pos p)) in *.
  assert (1 <= d) by (unfold d; lia).
  rewrite Z.max_l by lia.
  destruct (d + e - 53 - e) as [|q|q] eqn:Hn; cbn [fst snd];
    rewrite ?shr_record_of_loc_m; try lia.
  rewrite iter_shr_1_m by (rewrite shr_record_of_loc_m; lia).
  rewrite shr_record_of_loc_m. split; [|lia].
  apply Z.div_str_pos. split; [lia|].
  etrans; [|exact Hd]. apply Z.pow_le_mono_r; lia.
Qed.

Lemma round_nearest_even_pos m l : 0 < m -> 0 < round_nearest_even m l.
Proof. intros Hm. destruct l as [|[]]; cbn; try case_match; lia. Qed.

Lemma binary_round_aux_pos sx p e l :
  -1021 <= e -> signed_nonzero sx (binary_round_aux 53 1024 sx (Z.pos p) e l).
Proof.
  intros He. unfold binary_round_aux.
  pose proof (shr_fexp_pos p e l He) as [H1 H2].
  destruct (shr_fexp 53 1024 (Z.pos p) e l) as [mrs' e']. cbn [fst snd] in *.
  pose proof (round_nearest_even_pos _ (loc_of_shr_record mrs') H1) as H3.
  destruct (round_nearest_even (shr_m mrs') (loc_of_shr_record mrs'))
    as [|p'|p'] eqn:Hr; try lia.
  pose proof (shr_fexp_pos p' e' loc_Exact ltac:(lia)) as [H4 H5].
  destruct (shr_fexp 53 1024 (Z.pos p') e' loc_Exact) as [mrs'' e''].
  cbn [fst snd] in *.
  destruct (shr_m mrs'') as [|m|m]; try lia.
  by case_match.
Qed.

Lemma float64_pos z : 0 < z -> signed_nonzero false (float64 z).
Proof.
  intros Hz. destruct z as [|p|p]; try lia.
  unfold float64, binary_normalize, binary_round, shl_align, fexp, emin.
  pose proof (digits2_pos_lower p) as Hd.
  set (d := Z.pos (digits2_pos p)) in *.
  assert (1 <= d) by (unfold d; lia).
  rewrite Z.max_l by lia.
  destruct (d + 0 - 53 - 0) as [|q|q] eqn:Hn;
    apply binary_round_aux_pos; lia.
Qed.

(** Dividing a positive integer by zero gives [+Inf], and so does the
    percentage computed from the quotient. *)
Lemma percentage_of_zero_total g :
  0 < g ->
  f64_mul (f64_div (float64 g) (float64 0)) (float64 100) = S754_infinity false.
Proof.
  intros Hg. pose proof (float64_pos g Hg) as H.
  destruct (float64 g) as [s|s| |s m e]; cbn in H; try done; subst s;
    reflexivity.
Qed.

End Float64Facts.
Export Float64Facts.

(** ** The callbacks *)

Lemma at0_insert `{Countable K} (m : gmap K Z) (k k' : K) (v : Z) :
  at0 (<[k := v]> m) k' = if decide (k = k') then v else at0 m k'.
Proof. unfold at0. rewrite lookup_insert. by case_decide. Qed.


Section RunFacts.
Variable Address_Hex : Address -> string.
Abbreviation dispatch := (dispatch Address_Hex).
Abbreviation step := (step Address_Hex).
Abbreviation exec := (exec Address_Hex).
Abbreviation run := (run Address_Hex).

Lemma analyze_fold visit t :
  foldl analyze_opcode t visit =
  Assign.Optimizations' (Optimizations t ++ hot_opcodes (TotalGasUsed t) visit) t.
Proof.
  revert t. induction visit as [|[op g] visit IH]; intros t; cbn [foldl].
  - unfold hot_opcodes. cbn. rewrite app_nil_r. by destruct t.
  - rewrite IH. unfold analyze_opcode, hot_opcodes, report.
    rewrite filter_cons. cbn [snd fst].
    destruct (Z.ltb_spec (TotalGasUsed t / 10) g).
    + rewrite decide_True by done. cbn. by rewrite <- app_assoc.
    + rewrite decide_False by lia. done.
Qed.

Lemma analyzePatterns_spec visit t :
  analyzePatterns visit t =
  Assign.Optimizations'
    (Optimizations t ++ hot_opcodes (TotalGasUsed t) visit
       ++ batch_calls (length (CallOps t))) t.
Proof.
  unfold analyzePatterns, batch_calls, report. rewrite analyze_fold. cbn.
  case_match; cbn; by rewrite ?app_nil_r, <- ?app_assoc.
Qed.

Lemma track_memory_spec pc scope t :
  track_memory pc scope t =
  Assign.Optimizations' (Optimizations t ++ memory_findings pc scope) t.
Proof.
  unfold track_memory, memory_findings, report.
  destruct t; repeat case_match; cbn in *; rewrite ?app_nil_r; done.
Qed.

Lemma exec_run evs t : exec t evs (run evs t).
Proof.
  revert t. induction evs as [|e evs IH]; intros t; cbn.
  - constructor.
  - econstructor; [|apply IH]. apply step_intro. by unfold map_range.
Qed.

Lemma exec_app t1 evs1 t2 evs2 t3 :
  exec t1 evs1 t2 -> exec t2 evs2 t3 -> exec t1 (evs1 ++ evs2) t3.
Proof. induction 1; cbn; [done|]. intros. econstructor; eauto. Qed.

End RunFacts.

(** Projections of assigned records, and nothing else, are computed. *)
Ltac fields :=
  cbn [StorageReads StorageWrites MemoryOps CallOps Loops ExpensiveOps
       GasPerOpcode t_Stack t_Memory PC Gas Depth TotalGasUsed Optimizations
       Assign.StorageReads' Assign.StorageWrites' Assign.MemoryOps'
       Assign.CallOps' Assign.ExpensiveOps' Assign.GasPerOpcode' Assign.PC'
       Assign.Gas' Assign.Depth' Assign.TotalGasUsed' Assign.Optimizations'] in *.

Ltac handlers :=
  unfold dispatch, CaptureStart, CaptureState, CaptureEnter, CaptureExit,
    CaptureFault, CaptureEnd, CaptureTxStart, CaptureTxEnd, report in *.

Lemma filter_none {A} (P : A -> bool) (l : list A) :
  Forall (fun x => P x = false) l -> filter P l = [].
Proof.
  induction 1 as [|x l Hx _ IH]; [done|].
  rewrite filter_cons, IH. case_decide; [|done]. by rewrite Hx in *.
Qed.

Lemma filter_one {A} (P : A -> bool) (x : A) :
  filter P [x] = if P x then [x] else [].
Proof. rewrite filter_cons, filter_nil. destruct (P x); by case_decide. Qed.

Section StepFacts.
Variable Address_Hex : Address -> string.
Abbreviation dispatch := (dispatch Address_Hex).
Abbreviation step := (step Address_Hex).
Abbreviation exec := (exec Address_Hex).
Abbreviation run := (run Address_Hex).

(** *** Call operations *)

Lemma track_operation_CallOps pc op opName gas cost scope depth t :
  length (CallOps (track_operation Address_Hex pc op opName gas cost scope depth t)) =
  (length (CallOps t) + if is_call op then 1 else 0)%nat.
Proof.
  unfold track_operation, report.
  destruct op; cbn [is_call]; repeat case_match; fields;
    rewrite ?length_app; cbn [length]; lia.
Qed.

Lemma dispatch_CallOps visit e t :
  length (CallOps (dispatch visit e t)) =
  (length (CallOps t) + if is_call_step e then 1 else 0)%nat.
Proof.
  destruct e as [| pc op gas cost scope depth | | | | g | |];
    cbn [is_call_step]; handlers;
    rewrite ?analyzePatterns_spec, ?track_memory_spec; fields; try lia.
  by rewrite track_operation_CallOps.
Qed.

Lemma exec_CallOps t evs t' :
  exec t evs t' ->
  length (CallOps t') = (length (CallOps t) + length (filter is_call_step evs))%nat.
Proof.
  induction 1 as [|t e t' evs t'' [visit Hv] _ IH]; [cbn; lia|].
  rewrite IH, dispatch_CallOps, filter_cons.
  destruct (is_call_step e); case_decide; cbn [length] in *; try done; lia.
Qed.

(** *** Storage reads *)

Lemma reads_slot_sload k pc gas cost scope depth key :
  Back (Stack scope) 0 = Some key ->
  reads_slot k (EvState pc SLOAD gas cost scope depth)
  = bool_decide (BytesToHash (uint256_Bytes key) = k).
Proof.
  intros HB. unfold reads_slot, sload_slot. rewrite HB.
  cbn [fmap option_fmap option_map compose].
  apply bool_decide_ext. split; congruence.
Qed.

Lemma reads_slot_missing k pc gas cost scope depth :
  Back (Stack scope) 0 = None ->
  reads_slot k (EvState pc SLOAD gas cost scope depth) = false.
Proof. intros HB. unfold reads_slot, sload_slot. by rewrite HB. Qed.

Lemma redundant_read_of_sload k pc k' c :
  redundant_read_of k (redundant_sload pc k' c) = bool_decide (k' = k).
Proof.
  unfold redundant_read_of, has_type, redundant_sload. cbn [Type_ Details].
  rewrite (bool_decide_true ("redundant_sload" = "redundant_sload")) by done.
  cbn [andb].
  rewrite lookup_insert_eq. apply bool_decide_ext.
  split; [intros H; apply Hash_Hex_inj; congruence|congruence].
Qed.

Lemma reads_slot_other k e :
  (forall pc gas cost scope depth, e <> EvState pc SLOAD gas cost scope depth) ->
  reads_slot k e = false.
Proof.
  intros He. destruct e as [| pc op gas cost scope depth | | | | g | |]; try done.
  destruct op; try done. by destruct (He pc gas cost scope depth).
Qed.

Lemma track_operation_reads pc op opName gas cost scope depth t k :
  at0 (StorageReads (track_operation Address_Hex pc op opName gas cost scope depth t)) k =
  if reads_slot k (EvState pc op gas cost scope depth)
  then wrap_int (at0 (StorageReads t) k + 1)
  else at0 (StorageReads t) k.
Proof.
  destruct op;
    try (rewrite reads_slot_other by done;
         unfold track_operation, report; repeat case_match; by fields).
  unfold track_operation, report.
  destruct (Back (Stack scope) 0) as [key|] eqn:HB.
  - erewrite reads_slot_sload by done. fields.
    destruct (2 <? _); fields; rewrite at0_insert; case_decide;
      rewrite ?bool_decide_true, ?bool_decide_false by done; congruence.
  - by rewrite reads_slot_missing.
Qed.

Lemma dispatch_reads visit e t k :
  at0 (StorageReads (dispatch visit e t)) k =
  if reads_slot k e then wrap_int (at0 (StorageReads t) k + 1)
  else at0 (StorageReads t) k.
Proof.
  destruct e as [| pc op gas cost scope depth | | | | g | |];
    try (rewrite reads_slot_other by done; handlers;
         rewrite ?analyzePatterns_spec; by fields).
  handlers. rewrite track_memory_spec. fields.
  by rewrite track_operation_reads.
Qed.

(** *** Redundant-read Findings *)

Lemma redundant_read_of_type k o :
  Type_ o <> "redundant_sload" -> redundant_read_of k o = false.
Proof.
  intros H. unfold redundant_read_of, has_type.
  by rewrite (bool_decide_false (Type_ o = "redundant_sload")).
Qed.

Lemma no_redundant_in_memory k pc scope :
  filter (redundant_read_of k) (memory_findings pc scope) = [].
Proof.
  unfold memory_findings. case_match; [|done].
  rewrite filter_one, redundant_read_of_type; done.
Qed.

Lemma no_redundant_in_hot k total visit :
  filter (redundant_read_of k) (hot_opcodes total visit) = [].
Proof.
  apply filter_none, Forall_forall. intros o Ho.
  unfold hot_opcodes in Ho. apply list_elem_of_fmap in Ho as (e & -> & _).
  by apply redundant_read_of_type.
Qed.

Lemma no_redundant_in_batch k n :
  filter (redundant_read_of k) (batch_calls n) = [].
Proof.
  unfold batch_calls. case_match; [|done].
  rewrite filter_one, redundant_read_of_type; done.
Qed.

(** The redundant-read Findings about slot [k] that an event leaves. *)
Lemma dispatch_redundant visit e t k :
  filter (redundant_read_of k) (Optimizations (dispatch visit e t)) =
  filter (redundant_read_of k) (Optimizations t) ++
  match e with
  | EvState pc _ _ _ _ _ =>
      if reads_slot k e && (2 <? wrap_int (at0 (StorageReads t) k + 1))
      then [redundant_sload pc k (wrap_int (at0 (StorageReads t) k + 1))]
      else []
  | _ => []
  end.
Proof.
  destruct e as [| pc op gas cost scope depth | | | | g | |];
    try (handlers; fields; by rewrite app_nil_r).
  - handlers. rewrite track_memory_spec. fields.
    rewrite filter_app, no_redundant_in_memory, app_nil_r.
    destruct op;
      try (rewrite reads_slot_other by done;
           unfold track_operation, report; repeat case_match; fields;
           rewrite ?filter_app, ?filter_one, ?redundant_read_of_type by done;
           by rewrite ?app_nil_r).
    unfold track_operation, report.
    destruct (Back (Stack scope) 0) as [key|] eqn:HB.
    + erewrite reads_slot_sload by done. fields.
      rewrite at0_insert, decide_True by done.
      set (k' := BytesToHash (uint256_Bytes key)).
      destruct (decide (k' = k)) as [->|Hk].
      * rewrite bool_decide_true by done. cbn [andb].
        case_match; fields; [|by rewrite app_nil_r].
        by rewrite filter_app, filter_one, redundant_read_of_sload,
          bool_decide_true.
      * rewrite bool_decide_false by done. cbn [andb].
        case_match; fields; [|by rewrite app_nil_r].
        by rewrite filter_app, filter_one, redundant_read_of_sload,
          bool_decide_false.
    + rewrite reads_slot_missing by done. fields. by rewrite app_nil_r.
  - handlers. rewrite analyzePatterns_spec. fields.
    by rewrite !filter_app, no_redundant_in_hot, no_redundant_in_batch.
Qed.

Lemma read_pcs_cons k e evs :
  read_pcs k (e :: evs) =
  match e with
  | EvState pc _ _ _ _ _ => if reads_slot k e then pc :: read_pcs k evs else read_pcs k evs
  | _ => read_pcs k evs
  end.
Proof.
  unfold read_pcs. cbn [omap list_omap].
  destruct e; try done. by destruct (reads_slot _ _).
Qed.

Lemma reads_slot_is_state k e :
  reads_slot k e = true -> exists pc op gas cost scope depth, e = EvState pc op gas cost scope depth.
Proof. destruct e; try done. eauto 10. Qed.

Lemma redundant_sload_plain pc k c :
  2 < c -> (c - 1) * 100 < 2 ^ 64 -> redundant_sload pc k c = nth_read_finding k pc c.
Proof.
  intros H1 H2. unfold redundant_sload, nth_read_finding. f_equal.
  rewrite (u64_id c) by (unfold is_u64; lia).
  rewrite (u64_id (c - 1)) by (unfold is_u64; lia).
  apply u64_id. unfold is_u64. lia.
Qed.

Lemma exec_reads_from t evs t' k :
  exec t evs t' ->
  0 <= at0 (StorageReads t) k ->
  (at0 (StorageReads t) k + Z.of_nat (length (read_pcs k evs))) * 100 < 2 ^ 64 ->
  at0 (StorageReads t') k = at0 (StorageReads t) k + Z.of_nat (length (read_pcs k evs))
  /\ filter (redundant_read_of k) (Optimizations t') =
     filter (redundant_read_of k) (Optimizations t)
       ++ reads_from k (at0 (StorageReads t) k) (read_pcs k evs).
Proof.
  induction 1 as [t|t e t' evs t'' [visit Hv] _ IH]; intros H0 Hb.
  - cbn. rewrite app_nil_r. split; [lia|done].
  - rewrite read_pcs_cons in *.
    rewrite dispatch_reads, dispatch_redundant in IH.
    destruct (reads_slot k e) eqn:Hk.
    + destruct (reads_slot_is_state _ _ Hk) as (pc & op & gas & cost & scope & depth & ->).
      cbn [length reads_from andb] in *.
      rewrite (wrap_int_id (at0 (StorageReads t) k + 1)) in IH
        by (unfold is_int; lia).
      destruct IH as [IH1 IH2]; [lia|lia|].
      rewrite IH1, IH2, <- app_assoc. split; [lia|]. f_equal. f_equal.
      destruct (Z.ltb_spec 2 (at0 (StorageReads t) k + 1)); [|done].
      by rewrite redundant_sload_plain by lia.
    + assert (read_pcs k evs =
              match e with
              | EvState pc _ _ _ _ _ => read_pcs k evs
              | _ => read_pcs k evs
              end) as Hp by (by destruct e).
      rewrite <- Hp in *.
      assert (match e with
              | EvState pc _ _ _ _ _ =>
                  if false && (2 <? wrap_int (at0 (StorageReads t) k + 1))
                  then [redundant_sload pc k (wrap_int (at0 (StorageReads t) k + 1))]
                  else []
              | _ => []
              end = []) as He by (by destruct e).
      rewrite He, app_nil_r in IH. by apply IH.
Qed.

End StepFacts.

Lemma reads_from_imap k c pcs :
  0 <= c ->
  reads_from k c pcs =
  drop (Z.to_nat (2 - c))
    (imap (fun i pc => nth_read_finding k pc (c + Z.of_nat i + 1)) pcs).
Proof.
  revert c. induction pcs as [|pc pcs IH]; intros c Hc; [cbn [reads_from imap]; by rewrite drop_nil|].
  cbn [reads_from imap].
  assert (imap ((fun i pc => nth_read_finding k pc (c + Z.of_nat i + 1)) ∘ S) pcs
          = imap (fun i pc => nth_read_finding k pc (c + 1 + Z.of_nat i + 1)) pcs)
    as -> by (apply imap_ext; intros; cbn; f_equal; lia).
  rewrite IH by lia.
  destruct (Z.ltb_spec 2 (c + 1)).
  - replace (Z.to_nat (2 - c)) with 0%nat by lia.
    replace (Z.to_nat (2 - (c + 1))) with 0%nat by lia.
    cbn. do 2 f_equal. lia.
  - replace (Z.to_nat (2 - c)) with (S (Z.to_nat (2 - (c + 1)))) by lia.
    done.
Qed.

Section Claims.
Variable Address_Hex : Address -> string.
Abbreviation dispatch := (dispatch Address_Hex).
Abbreviation step := (step Address_Hex).
Abbreviation exec := (exec Address_Hex).
Abbreviation run := (run Address_Hex).
Abbreviation CaptureState := (CaptureState Address_Hex).

(** C1: in every trace starting from a new tracer, after a slot has been
    read [N] times by SLOAD steps that carry their operand, the slot's read
    counter is [N], and the redundant-read Findings about the slot are, in
    order, those of the reads number 3, 4, ..., [N]: each is of high
    severity, is located at the program counter of its read, and carries
    savings [(n - 1) * 100] and read count [n].  So two reads leave none and
    three reads leave one, with savings 200.  ([N * 100] is below [2^64],
    as in any trace a machine can hold.) *)
Theorem C1_redundant_sload evs t k :
  exec NewGasOptimizationTracer evs t ->
  Z.of_nat (length (read_pcs k evs)) * 100 < 2 ^ 64 ->
  at0 (StorageReads t) k = Z.of_nat (length (read_pcs k evs))
  /\ filter (redundant_read_of k) (Optimizations t) =
     drop 2 (imap (fun i pc => nth_read_finding k pc (Z.of_nat i + 1))
               (read_pcs k evs)).
Proof.
  intros Hexec Hb.
  destruct (exec_reads_from Address_Hex _ _ _ k Hexec) as [H1 H2];
    [done|by cbn|].
  split; [exact H1|]. rewrite H2. cbn [Optimizations NewGasOptimizationTracer].
  rewrite filter_nil, app_nil_l.
  change (at0 (StorageReads NewGasOptimizationTracer) k) with 0.
  rewrite reads_from_imap by done. done.
Qed.

(** C5: from any state a trace reaches, a step adds its cost to the
    cumulative usage and an exit adds the usage it reports (in [uint64]
    arithmetic); [CaptureEnd] overwrites the total with the value it is
    given, and only then runs the terminal pass, whose hot-opcode threshold
    is therefore a tenth of that value: after [CaptureEnd] the total is the
    supplied value, whatever was accrued. *)
Theorem C5_total_usage evs t :
  exec NewGasOptimizationTracer evs t ->
  forall pc op gas cost scope depth gasUsed visit,
    TotalGasUsed (CaptureState pc op gas cost scope depth t)
      = u64 (TotalGasUsed t + cost)
    /\ TotalGasUsed (CaptureExit gasUsed t) = u64 (TotalGasUsed t + gasUsed)
    /\ TotalGasUsed (CaptureEnd visit gasUsed t) = gasUsed
    /\ Optimizations (CaptureEnd visit gasUsed t) =
       Optimizations t ++ hot_opcodes gasUsed visit
         ++ batch_calls (length (CallOps t)).
Proof.
  intros _ pc op gas cost scope depth gasUsed visit.
  split; [|split; [|split]].
  - handlers. rewrite track_memory_spec. fields.
    unfold track_operation, report.
    destruct op; repeat case_match; by fields.
  - handlers. by fields.
  - handlers. rewrite analyzePatterns_spec. by fields.
  - handlers. rewrite analyzePatterns_spec. by fields.
Qed.

Lemma no_batch_in_hot total visit :
  filter (has_type "multiple_calls") (hot_opcodes total visit) = [].
Proof.
  apply filter_none, Forall_forall. intros o Ho.
  unfold hot_opcodes in Ho. apply list_elem_of_fmap in Ho as (e & -> & _).
  unfold has_type. by rewrite bool_decide_false.
Qed.

Lemma multiple_calls_plain n :
  0 <= n -> n * 2100 < 2 ^ 64 -> multiple_calls n = batch_calls_finding n.
Proof.
  intros H1 H2. unfold multiple_calls, batch_calls_finding. f_equal.
  rewrite (u64_id n) by (unfold is_u64; lia). apply u64_id. unfold is_u64. lia.
Qed.

(** C6: when [CaptureEnd] closes a trace that started from a new tracer,
    the terminal pass appends its hot-opcode Findings and then, if and only
    if the trace has more than 5 external-call steps, one batch-calls
    Finding: of medium severity, with [call_count] the number [n] of those
    steps and savings [n * 2100]; no hot-opcode Finding is a batch-calls
    Finding.  So 6 calls give [call_count = 6] and savings 12600, and 5 or
    fewer give none.  ([n * 2100] is below [2^64].) *)
Theorem C6_batch_calls evs t gasUsed t' :
  exec NewGasOptimizationTracer evs t ->
  step t (EvEnd gasUsed) t' ->
  Z.of_nat (length (filter is_call_step evs)) * 2100 < 2 ^ 64 ->
  exists hot,
    Optimizations t' =
      Optimizations t ++ hot ++
        (if 5 <? Z.of_nat (length (filter is_call_step evs))
         then [batch_calls_finding (Z.of_nat (length (filter is_call_step evs)))]
         else [])
    /\ filter (has_type "multiple_calls") hot = [].
Proof.
  intros Hexec [visit Hv] Hb.
  exists (hot_opcodes gasUsed visit). split; [|apply no_batch_in_hot].
  handlers. rewrite analyzePatterns_spec. fields.
  rewrite (exec_CallOps Address_Hex _ _ _ Hexec).
  cbn [CallOps NewGasOptimizationTracer length Nat.add].
  unfold batch_calls. do 2 f_equal. case_match; [|done].
  by rewrite multiple_calls_plain by lia.
Qed.

(** *** Depth *)

Lemma dispatch_Depth visit e t :
  Depth (dispatch visit e t) =
  match e with
  | EvStart _ => 0
  | EvState _ _ _ _ _ depth => depth
  | EvEnter => wrap_int (Depth t + 1)
  | EvExit _ => wrap_int (Depth t - 1)
  | _ => Depth t
  end.
Proof.
  destruct e as [| pc op gas cost scope depth | | | | g | |]; handlers;
    rewrite ?analyzePatterns_spec, ?track_memory_spec; fields; try done.
  unfold track_operation, report.
  destruct op; repeat case_match; by fields.
Qed.





(** *** Steps with missing operands, and late events *)

Lemma track_operation_GasPerOpcode pc op opName gas cost scope depth t :
  GasPerOpcode (track_operation Address_Hex pc op opName gas cost scope depth t)
  = GasPerOpcode t.
Proof.
  unfold track_operation, report.
  destruct op; repeat case_match; by fields.
Qed.



(** C2 (as amended): the tracer keeps no record of a trace having ended,
    and an event that comes after [CaptureEnd] is processed like any other:
    a late step adds its cost to the total and to the usage of its opcode,
    sets the depth, and keeps what was recorded (it can only append); a late
    enter adds one to the depth; a late exit takes one from the depth and
    adds its usage to the total. *)
Theorem C2_late_events_processed t visit gasUsed pc op gas cost scope depth gasUsed' :
  TotalGasUsed (CaptureState pc op gas cost scope depth (CaptureEnd visit gasUsed t))
    = u64 (gasUsed + cost)
  /\ at0 (GasPerOpcode
            (CaptureState pc op gas cost scope depth (CaptureEnd visit gasUsed t)))
         (OpCode_String op)
     = u64 (at0 (GasPerOpcode t) (OpCode_String op) + cost)
  /\ Depth (CaptureState pc op gas cost scope depth (CaptureEnd visit gasUsed t))
     = depth
  /\ Optimizations (CaptureEnd visit gasUsed t)
       `prefix_of`
     Optimizations (CaptureState pc op gas cost scope depth (CaptureEnd visit gasUsed t))
  /\ Depth (CaptureEnter (CaptureEnd visit gasUsed t)) = wrap_int (Depth t + 1)
  /\ Depth (CaptureExit gasUsed' (CaptureEnd visit gasUsed t)) = wrap_int (Depth t - 1)
  /\ TotalGasUsed (CaptureExit gasUsed' (CaptureEnd visit gasUsed t))
     = u64 (gasUsed + gasUsed').
Proof.
  split; [|split; [|split; [|split; [|split; [|split]]]]].
  - handlers. rewrite track_memory_spec, analyzePatterns_spec. fields.
    unfold track_operation, report.
    destruct op; repeat case_match; by fields.
  - handlers. rewrite track_memory_spec, analyzePatterns_spec. fields.
    rewrite track_operation_GasPerOpcode. fields. by rewrite at0_insert, decide_True.
  - exact (dispatch_Depth [] (EvState pc op gas cost scope depth) _).
  - handlers. rewrite track_memory_spec. fields.
    etrans; [|apply prefix_app_r; reflexivity].
    unfold track_operation, report.
    destruct op; repeat case_match; fields;
      try reflexivity; try (by apply prefix_app_r).
  - handlers. rewrite analyzePatterns_spec. by fields.
  - handlers. rewrite analyzePatterns_spec. by fields.
  - handlers. rewrite analyzePatterns_spec. by fields.
Qed.

End Claims.

(** ** Serialization *)

Module EncodeFacts.
Import Encode.

Lemma traverse_fail {A B} (f : A -> result B) l a e :
  a ∈ l -> f a = inr e -> exists e', traverse f l = inr e'.
Proof.
  intros Ha Hf. induction l as [|x l IH]; [by apply elem_of_nil in Ha|].
  cbn [traverse]. apply elem_of_cons in Ha as [<-|Ha].
  - rewrite Hf. cbn. eauto.
  - destruct (f x); cbn; [|eauto]. destruct (IH Ha) as [e' ->]. cbn. eauto.
Qed.

Lemma traverse_total {A B} (f : A -> result B) l :
  (forall a, exists b, f a = inl b) -> exists bs, traverse f l = inl bs.
Proof.
  intros Hf. induction l as [|x l [bs IH]]; cbn [traverse]; [eauto|].
  destruct (Hf x) as [b ->]. rewrite IH. cbn. eauto.
Qed.

Lemma object_total {V} (enc : V -> result Json) (m : gmap string V) :
  (forall v, exists j, enc v = inl j) -> exists j, object enc m = inl j.
Proof.
  intros Henc. unfold object.
  destruct (traverse_total
              (fun kv => bind (enc kv.2) (fun j => inl (kv.1, j)))
              (sorted_entries m)) as [bs ->]; [|cbn; eauto].
  intros [k v]. destruct (Henc v) as [j Hj]. cbn. rewrite Hj. cbn. eauto.
Qed.

Lemma sorted_entries_elem {V} (m : gmap string V) k v :
  m !! k = Some v -> (k, v) ∈ sorted_entries m.
Proof.
  intros H. unfold sorted_entries. rewrite merge_sort_Permutation.
  by apply elem_of_map_to_list.
Qed.

Lemma object_fail {V} (enc : V -> result Json) (m : gmap string V) k v e :
  m !! k = Some v -> enc v = inr e -> exists e', object enc m = inr e'.
Proof.
  intros Hk He. unfold object.
  destruct (traverse_fail
              (fun kv => bind (enc kv.2) (fun j => inl (kv.1, j)))
              (sorted_entries m) (k, v) e) as [e' ->];
    [by apply sorted_entries_elem|cbn; by rewrite He|cbn; eauto].
Qed.

Lemma optimization_fail o k f :
  Details o !! k = Some (VFloat64 f) -> f64_finite f = false ->
  exists e, optimization o = inr e.
Proof.
  intros Hk Hf. unfold optimization.
  destruct (object_fail value (Details o) k (VFloat64 f) (UnsupportedValueError f))
    as [e ->]; [done|cbn; by rewrite Hf|cbn; eauto].
Qed.

(** The entries of the report, as the encoder orders them. *)
Lemma sorted_report (v1 v2 v3 v4 v5 v6 v7 v8 : ReportValue) :
  sorted_entries
    (<["total_gas_used" := v1]>
    (<["storage_reads" := v2]>
    (<["storage_writes" := v3]>
    (<["memory_operations" := v4]>
    (<["call_operations" := v5]>
    (<["expensive_ops" := v6]>
    (<["optimizations" := v7]>
    (<["gas_by_opcode" := v8]> ∅))))))))
  = [ ("call_operations", v5); ("expensive_ops", v6); ("gas_by_opcode", v8);
      ("memory_operations", v4); ("optimizations", v7); ("storage_reads", v2);
      ("storage_writes", v3); ("total_gas_used", v1) ].
Proof. vm_compute. reflexivity. Qed.

Lemma GetReport_cases t :
  match traverse optimization (Optimizations t) with
  | inl items =>
      exists gas, GetReport t = inl (JObject
        [ ("call_operations", JNumber (Z.of_nat (length (CallOps t))));
          ("expensive_ops", JNumber (Z.of_nat (length (ExpensiveOps t))));
          ("gas_by_opcode", gas);
          ("memory_operations", JNumber (Z.of_nat (length (MemoryOps t))));
          ("optimizations", JArray items);
          ("storage_reads", JNumber (Z.of_nat (size (StorageReads t))));
          ("storage_writes", JNumber (Z.of_nat (size (StorageWrites t))));
          ("total_gas_used", JNumber (TotalGasUsed t)) ])
  | inr e => GetReport t = inr e
  end.
Proof.
  unfold GetReport, MarshalIndent, report_map, object.
  rewrite sorted_report.
  cbn [traverse bind encode_report_value fst snd].
  destruct (object_total (fun n : Z => inl (JNumber n)) (GasPerOpcode t))
    as [gas ->]; [eauto|].
  cbn [bind]. destruct (traverse optimization (Optimizations t)); cbn [bind]; eauto.
Qed.

End EncodeFacts.

Section ReportClaims.
Import Encode EncodeFacts.

(** C10: when the terminal pass runs on a total usage of zero, every
    mnemonic with a positive usage gets a hot-opcode Finding whose
    [percentage] is the float [+Inf], and from then on [GetReport] returns
    the encoder's error instead of a document. *)
Theorem C10_zero_total_report_fails t visit opcode g :
  TotalGasUsed t = 0 ->
  map_range (GasPerOpcode t) visit ->
  GasPerOpcode t !! opcode = Some g ->
  0 < g ->
  expensive_opcode opcode g 0 ∈ Optimizations (analyzePatterns visit t)
  /\ Details (expensive_opcode opcode g 0) !! "percentage"
     = Some (VFloat64 (S754_infinity false))
  /\ exists err, GetReport (analyzePatterns visit t) = inr err.
Proof.
  intros Ht Hv Hg Hpos.
  assert (Details (expensive_opcode opcode g 0) !! "percentage"
          = Some (VFloat64 (S754_infinity false))) as Hd.
  { unfold expensive_opcode. cbn [Details].
    rewrite lookup_insert_ne by done. rewrite lookup_insert_ne by done.
    rewrite lookup_singleton_eq. by rewrite percentage_of_zero_total. }
  assert (expensive_opcode opcode g 0 ∈ Optimizations (analyzePatterns visit t)) as Hin.
  { rewrite analyzePatterns_spec. fields. rewrite Ht.
    apply elem_of_app. right. apply elem_of_app. left.
    unfold hot_opcodes. apply list_elem_of_fmap. exists (opcode, g).
    split; [done|]. apply list_elem_of_filter. split; [exact Hpos|].
    unfold map_range in Hv. rewrite Hv. by apply elem_of_map_to_list. }
  split; [done|]. split; [done|].
  pose proof (GetReport_cases (analyzePatterns visit t)) as Hr.
  destruct (optimization_fail _ _ _ Hd eq_refl) as [e He].
  destruct (traverse_fail optimization _ _ _ Hin He) as [e' He'].
  rewrite He' in Hr. eauto.
Qed.

(** C8 (as amended): whenever [GetReport] returns a document, its fields
    are in the order in which the encoder writes the keys of a map, sorted:
    call_operations, expensive_ops, gas_by_opcode, memory_operations,
    optimizations, storage_reads, storage_writes, total_gas_used. *)
Theorem C8_encoder_field_order t doc :
  GetReport t = inl doc -> field_names doc = encoder_order.
Proof.
  intros H. pose proof (GetReport_cases t) as Hr.
  destruct (traverse optimization (Optimizations t)).
  - destruct Hr as [gas Hr]. rewrite Hr in H. injection H as <-. reflexivity.
  - congruence.
Qed.

End ReportClaims.

(** ** The claims on concrete traces *)

Lemma C1_redundant_sload_witness :
  exec plain_hex NewGasOptimizationTracer three_reads
    (run plain_hex three_reads NewGasOptimizationTracer)
  /\ Z.of_nat (length (read_pcs slot_1234 three_reads)) * 100 < 2 ^ 64
  /\ at0 (StorageReads (run plain_hex three_reads NewGasOptimizationTracer)) slot_1234
     = Z.of_nat (length (read_pcs slot_1234 three_reads))
  /\ filter (redundant_read_of slot_1234)
       (Optimizations (run plain_hex three_reads NewGasOptimizationTracer)) =
     drop 2 (imap (fun i pc => nth_read_finding slot_1234 pc (Z.of_nat i + 1))
               (read_pcs slot_1234 three_reads)).
Proof.
  split; [apply exec_run|]. split; [vm_compute; reflexivity|].
  apply (C1_redundant_sload plain_hex three_reads); [apply exec_run|].
  vm_compute. reflexivity.
Defined.

Example three_reads_one_finding :
  read_pcs slot_1234 three_reads = [1; 2; 7]
  /\ GasSavings <$> filter (redundant_read_of slot_1234)
       (Optimizations (run plain_hex three_reads NewGasOptimizationTracer)) = [200].
Proof. split; vm_compute; reflexivity. Qed.

Lemma C5_total_usage_witness :
  exec plain_hex NewGasOptimizationTracer three_reads
    (run plain_hex three_reads NewGasOptimizationTracer)
  /\ forall pc op gas cost scope depth gasUsed visit,
      TotalGasUsed (CaptureState plain_hex pc op gas cost scope depth
                      (run plain_hex three_reads NewGasOptimizationTracer))
        = u64 (TotalGasUsed (run plain_hex three_reads NewGasOptimizationTracer) + cost)
      /\ TotalGasUsed (CaptureExit gasUsed
                        (run plain_hex three_reads NewGasOptimizationTracer))
         = u64 (TotalGasUsed (run plain_hex three_reads NewGasOptimizationTracer) + gasUsed)
      /\ TotalGasUsed (CaptureEnd visit gasUsed
                        (run plain_hex three_reads NewGasOptimizationTracer))
         = gasUsed
      /\ Optimizations (CaptureEnd visit gasUsed
                         (run plain_hex three_reads NewGasOptimizationTracer)) =
         Optimizations (run plain_hex three_reads NewGasOptimizationTracer)
           ++ hot_opcodes gasUsed visit
           ++ batch_calls
                (length (CallOps (run plain_hex three_reads NewGasOptimizationTracer))).
Proof.
  split; [apply exec_run|].
  apply (C5_total_usage plain_hex three_reads). apply exec_run.
Defined.

Example three_reads_accrual :
  TotalGasUsed (run plain_hex three_reads NewGasOptimizationTracer) = 9400
  /\ TotalGasUsed (run plain_hex (three_reads ++ [EvEnd 21000]) NewGasOptimizationTracer)
     = 21000.
Proof. split; vm_compute; reflexivity. Qed.

Lemma C6_batch_calls_witness :
  exec plain_hex NewGasOptimizationTracer six_calls
    (run plain_hex six_calls NewGasOptimizationTracer)
  /\ step plain_hex (run plain_hex six_calls NewGasOptimizationTracer) (EvEnd 64200)
       (run plain_hex (six_calls ++ [EvEnd 64200]) NewGasOptimizationTracer)
  /\ Z.of_nat (length (filter is_call_step six_calls)) * 2100 < 2 ^ 64
  /\ exists hot,
      Optimizations (run plain_hex (six_calls ++ [EvEnd 64200]) NewGasOptimizationTracer) =
        Optimizations (run plain_hex six_calls NewGasOptimizationTracer) ++ hot ++
          (if 5 <? Z.of_nat (length (filter is_call_step six_calls))
           then [batch_calls_finding (Z.of_nat (length (filter is_call_step six_calls)))]
           else [])
      /\ filter (has_type "multiple_calls") hot = [].
Proof.
  assert (step plain_hex (run plain_hex six_calls NewGasOptimizationTracer) (EvEnd 64200)
            (run plain_hex (six_calls ++ [EvEnd 64200]) NewGasOptimizationTracer)) as Hs.
  { unfold run. rewrite foldl_app. cbn [foldl]. apply step_intro. by unfold map_range. }
  split; [apply exec_run|]. split; [exact Hs|]. split; [vm_compute; reflexivity|].
  apply (C6_batch_calls plain_hex six_calls _ 64200); [apply exec_run|exact Hs|].
  vm_compute. reflexivity.
Defined.

Example six_calls_batch :
  (fun o => (Type_ o, GasSavings o, Details o !! "call_count"))
    <$> Optimizations (run plain_hex (six_calls ++ [EvEnd 64200]) NewGasOptimizationTracer)
  = [ ("multiple_calls", 12600, Some (VInt 6)) ]
  /\ Optimizations (run plain_hex (take 6 six_calls ++ [EvEnd 64200]) NewGasOptimizationTracer)
     = [].
Proof. split; vm_compute; reflexivity. Qed.




(** C2, as the specification states it, fails: an enter that comes after
    [CaptureEnd] changes the depth. *)
Lemma C2_late_enter_changes_depth : ~ late_events_ignored plain_hex.
Proof.
  intros H.
  destruct (H [] 0 [] (run plain_hex [EvEnd 0] NewGasOptimizationTracer) EvEnter
              (run plain_hex [EvEnd 0; EvEnter] NewGasOptimizationTracer))
    as [Ha _].
  - apply exec_run.
  - exact I.
  - apply (step_intro plain_hex _ EvEnter
             (map_to_list (GasPerOpcode (run plain_hex [EvEnd 0] NewGasOptimizationTracer)))).
    by unfold map_range.
  - apply (f_equal (fun a => a.1.2)) in Ha. vm_compute in Ha. discriminate.
Qed.

Lemma C8_encoder_field_order_witness :
  GetReport NewGasOptimizationTracer =
    inl (JObject
      [ ("call_operations", JNumber 0); ("expensive_ops", JNumber 0);
        ("gas_by_opcode", JObject []); ("memory_operations", JNumber 0);
        ("optimizations", JArray []); ("storage_reads", JNumber 0);
        ("storage_writes", JNumber 0); ("total_gas_used", JNumber 0) ])
  /\ field_names (JObject
      [ ("call_operations", JNumber 0); ("expensive_ops", JNumber 0);
        ("gas_by_opcode", JObject []); ("memory_operations", JNumber 0);
        ("optimizations", JArray []); ("storage_reads", JNumber 0);
        ("storage_writes", JNumber 0); ("total_gas_used", JNumber 0) ])
     = encoder_order.
Proof.
  assert (GetReport NewGasOptimizationTracer =
    inl (JObject
      [ ("call_operations", JNumber 0); ("expensive_ops", JNumber 0);
        ("gas_by_opcode", JObject []); ("memory_operations", JNumber 0);
        ("optimizations", JArray []); ("storage_reads", JNumber 0);
        ("storage_writes", JNumber 0); ("total_gas_used", JNumber 0) ])) as H
    by (vm_compute; reflexivity).
  split; [exact H|]. exact (C8_encoder_field_order _ _ H).
Defined.

(** C8, as the specification states it, fails: the report of a new tracer
    begins with [call_operations], not with the total. *)
Lemma C8_interface_order_not_kept : ~ interface_order_kept.
Proof.
  intros H.
  assert (GetReport NewGasOptimizationTracer =
    inl (JObject
      [ ("call_operations", JNumber 0); ("expensive_ops", JNumber 0);
        ("gas_by_opcode", JObject []); ("memory_operations", JNumber 0);
        ("optimizations", JArray []); ("storage_reads", JNumber 0);
        ("storage_writes", JNumber 0); ("total_gas_used", JNumber 0) ])) as Hr
    by (vm_compute; reflexivity).
  apply H in Hr. vm_compute in Hr. discriminate.
Qed.

Lemma C10_zero_total_report_fails_witness :
  TotalGasUsed (Assign.TotalGasUsed' 0 (run plain_hex costly_step NewGasOptimizationTracer)) = 0
  /\ expensive_opcode "SLOAD" 100 0 ∈
       Optimizations (run plain_hex (costly_step ++ [EvEnd 0]) NewGasOptimizationTracer)
  /\ exists err,
       GetReport (run plain_hex (costly_step ++ [EvEnd 0]) NewGasOptimizationTracer)
       = inr err.
Proof.
  split; [reflexivity|].
  destruct (C10_zero_total_report_fails
              (Assign.TotalGasUsed' 0 (run plain_hex costly_step NewGasOptimizationTracer))
              (map_to_list (GasPerOpcode (run plain_hex costly_step NewGasOptimizationTracer)))
              "SLOAD" 100) as (H1 & _ & H3).
  - reflexivity.
  - by unfold map_range.
  - vm_compute. reflexivity.
  - lia.
  - split; [exact H1|exact H3].
Defined.


(** C7: two runs of the terminal pass over the same trace, in which
    [range] visits the two entries of the usage map in opposite orders:
    both are runs of the program, and their Findings lists differ. *)

Lemma C7_two_runs_differ :
  exists t1 t2,
    exec plain_hex NewGasOptimizationTracer (two_hot_opcodes ++ [EvEnd 200]) t1
    /\ exec plain_hex NewGasOptimizationTracer (two_hot_opcodes ++ [EvEnd 200]) t2
    /\ (fun o => Details o !! "opcode") <$> Optimizations t1
       = [Some (VString "SLOAD"); Some (VString "SSTORE")]
    /\ (fun o => Details o !! "opcode") <$> Optimizations t2
       = [Some (VString "SSTORE"); Some (VString "SLOAD")].
Proof.
  assert (map_to_list (GasPerOpcode (run plain_hex two_hot_opcodes NewGasOptimizationTracer))
          ≡ₚ [("SLOAD", 100); ("SSTORE", 100)]) as Hp
    by (vm_compute; first [reflexivity | apply perm_swap]).
  assert (forall visit,
            map_range (GasPerOpcode (run plain_hex two_hot_opcodes NewGasOptimizationTracer)) visit ->
            exec plain_hex NewGasOptimizationTracer (two_hot_opcodes ++ [EvEnd 200])
              (dispatch plain_hex visit (EvEnd 200)
                 (run plain_hex two_hot_opcodes NewGasOptimizationTracer))) as Hrun.
  { intros visit Hv. eapply exec_app; [apply exec_run|].
    eapply exec_cons; [|apply exec_nil]. by apply step_intro. }
  eexists _, _. split; [|split; [|split]].
  - apply (Hrun [("SLOAD", 100); ("SSTORE", 100)]). unfold map_range. by rewrite Hp.
  - apply (Hrun [("SSTORE", 100); ("SLOAD", 100)]). unfold map_range. rewrite Hp.
    apply perm_swap.
  - vm_compute. reflexivity.
  - vm_compute. reflexivity.
Qed.

(** * Further properties of the tracer *)

Section MoreFacts.
Variable Address_Hex : Address -> string.
Abbreviation dispatch := (dispatch Address_Hex).
Abbreviation step := (step Address_Hex).
Abbreviation exec := (exec Address_Hex).
Abbreviation run := (run Address_Hex).
Abbreviation CaptureState := (CaptureState Address_Hex).

(** *** What an event appends *)

Lemma track_operation_appends pc op opName gas cost scope depth t :
  Optimizations t `prefix_of`
    Optimizations (track_operation Address_Hex pc op opName gas cost scope depth t)
  /\ MemoryOps t `prefix_of`
       MemoryOps (track_operation Address_Hex pc op opName gas cost scope depth t)
  /\ CallOps t `prefix_of`
       CallOps (track_operation Address_Hex pc op opName gas cost scope depth t)
  /\ ExpensiveOps t `prefix_of`
       ExpensiveOps (track_operation Address_Hex pc op opName gas cost scope depth t).
Proof.
  unfold track_operation, report.
  destruct op; repeat case_match; fields;
    repeat split; try reflexivity; by apply prefix_app_r.
Qed.

Lemma dispatch_appends visit e t :
  Optimizations t `prefix_of` Optimizations (dispatch visit e t)
  /\ MemoryOps t `prefix_of` MemoryOps (dispatch visit e t)
  /\ CallOps t `prefix_of` CallOps (dispatch visit e t)
  /\ ExpensiveOps t `prefix_of` ExpensiveOps (dispatch visit e t).
Proof.
  destruct e as [| pc op gas cost scope depth | | | | g | |]; handlers;
    rewrite ?analyzePatterns_spec, ?track_memory_spec; fields;
    try (repeat split; try reflexivity; by apply prefix_app_r).
  match goal with
  | |- context [track_operation _ ?pc ?op ?n ?g ?c ?s ?d ?t0] =>
      destruct (track_operation_appends pc op n g c s d t0) as (H1 & H2 & H3 & H4)
  end.
  fields. repeat split; try done.
  etrans; [exact H1|]. by apply prefix_app_r.
Qed.

(** The Findings, and the records of memory operations, calls and
    expensive operations, only ever grow at the end: whatever a trace does,
    what was recorded before it is a prefix of what is recorded after. *)
Theorem records_append_only t evs t' :
  exec t evs t' ->
  Optimizations t `prefix_of` Optimizations t'
  /\ MemoryOps t `prefix_of` MemoryOps t'
  /\ CallOps t `prefix_of` CallOps t'
  /\ ExpensiveOps t `prefix_of` ExpensiveOps t'.
Proof.
  induction 1 as [t|t e t' evs t'' [visit Hv] _ (I1 & I2 & I3 & I4)].
  - repeat split; reflexivity.
  - destruct (dispatch_appends visit e t) as (H1 & H2 & H3 & H4).
    repeat split; etrans; eauto.
Qed.

(** *** Depth over nested frames *)

Lemma exec_split t evs1 evs2 t' :
  exec t (evs1 ++ evs2) t' -> exists t1, exec t evs1 t1 /\ exec t1 evs2 t'.
Proof.
  revert t. induction evs1 as [|e evs1 IH]; intros t H; cbn in H.
  - exists t. split; [constructor|done].
  - inversion H as [|? ? t1 ? ? Hs He]; subst.
    destruct (IH _ He) as (t2 & H1 & H2).
    exists t2. split; [|done]. econstructor; eauto.
Qed.

(** After a properly nested sequence of enters and exits, to any depth,
    the call depth is back at the value it had before the sequence (even
    if the [int] wrapped on the way). *)
Theorem nested_frames_restore_depth evs :
  nested evs ->
  forall t t', is_int (Depth t) -> exec t evs t' -> Depth t' = Depth t.
Proof.
  induction 1 as [|inner gasUsed rest _ IHi _ IHr]; intros t t' Ht H.
  - by inversion H.
  - inversion H as [|? ? t1 ? ? [v1 _] H1]; subst.
    apply exec_split in H1 as (t2 & Hin & H2).
    inversion H2 as [|? ? t3 ? ? [v3 _] H3]; subst.
    apply IHi in Hin; [|rewrite dispatch_Depth; apply wrap_int_range].
    apply IHr in H3; [|rewrite dispatch_Depth; apply wrap_int_range].
    rewrite H3, dispatch_Depth, Hin, dispatch_Depth.
    replace (wrap_int (Depth t + 1) - 1) with (wrap_int (Depth t + 1) + -1) by lia.
    rewrite wrap_int_add_l.
    replace (Depth t + 1 + -1) with (Depth t) by lia. by apply wrap_int_id.
Qed.

(** *** The hot-opcode threshold *)

Lemma tenth_exact total g : (total / 10 <? g) = (total <? 10 * g).
Proof.
  pose proof (Z.div_mod total 10 ltac:(lia)) as Hd.
  pose proof (Z.mod_pos_bound total 10 ltac:(lia)) as Hm.
  destruct (Z.ltb_spec (total / 10) g), (Z.ltb_spec total (10 * g)); lia.
Qed.

(** The integer test of the terminal pass loses nothing to rounding: a
    mnemonic gets a hot-opcode Finding exactly when ten times its usage
    exceeds the total, so a mnemonic at exactly 10% gets none; the Findings
    come in the order of the visit, before the batch-calls Finding. *)
Theorem hot_opcode_threshold_exact visit t :
  Optimizations (analyzePatterns visit t) =
  Optimizations t
    ++ ((fun e => expensive_opcode e.1 e.2 (TotalGasUsed t))
          <$> filter (fun e => TotalGasUsed t < 10 * e.2) visit)
    ++ batch_calls (length (CallOps t)).
Proof.
  rewrite analyzePatterns_spec. fields. unfold hot_opcodes. do 3 f_equal.
  apply list_filter_iff. intros [opcode g]. cbn [snd].
  pose proof (tenth_exact (TotalGasUsed t) g) as H.
  destruct (Z.ltb_spec (TotalGasUsed t / 10) g),
    (Z.ltb_spec (TotalGasUsed t) (10 * g)); try done; lia.
Qed.

(** *** Storage writes *)

Lemma writes_slot_other k e :
  (forall pc gas cost scope depth, e <> EvState pc SSTORE gas cost scope depth) ->
  writes_slot k e = false.
Proof.
  intros He. destruct e as [| pc op gas cost scope depth | | | | g | |]; try done.
  destruct op; try done. by destruct (He pc gas cost scope depth).
Qed.

Lemma dispatch_writes visit e t k :
  at0 (StorageWrites (dispatch visit e t)) k =
  if writes_slot k e then wrap_int (at0 (StorageWrites t) k + 1)
  else at0 (StorageWrites t) k.
Proof.
  destruct e as [| pc op gas cost scope depth | | | | g | |];
    try (rewrite writes_slot_other by done; handlers;
         rewrite ?analyzePatterns_spec; by fields).
  handlers. rewrite track_memory_spec. fields.
  destruct op;
    try (rewrite writes_slot_other by done;
         unfold track_operation, report; repeat case_match; by fields).
  unfold track_operation, report, writes_slot, sstore_slot.
  destruct (Back (Stack scope) 0) as [key|]; [|done].
  cbn [fmap option_fmap option_map compose]. fields. rewrite at0_insert.
  case_decide as Hk.
  - by rewrite bool_decide_true, <- Hk by congruence.
  - rewrite bool_decide_false; [done|congruence].
Qed.

(** From a new tracer, the write counter of a slot is the number of
    storage-write steps that resolved that slot: a write whose operand is
    missing counts for no slot, and no other event counts.  (The trace is
    shorter than [2^63], the range of the [int] counter.) *)
Theorem storage_writes_counted evs t k :
  exec NewGasOptimizationTracer evs t ->
  Z.of_nat (length evs) < 2 ^ 63 ->
  at0 (StorageWrites t) k = Z.of_nat (length (filter (writes_slot k) evs)).
Proof.
  intros Hexec Hb.
  enough (forall t0 evs t, exec t0 evs t ->
            0 <= at0 (StorageWrites t0) k ->
            at0 (StorageWrites t0) k + Z.of_nat (length evs) < 2 ^ 63 ->
            at0 (StorageWrites t) k =
            at0 (StorageWrites t0) k + Z.of_nat (length (filter (writes_slot k) evs)))
    as H.
  { pose proof (H _ _ _ Hexec) as H'.
    change (at0 (StorageWrites NewGasOptimizationTracer) k) with 0 in H'.
    rewrite H'; lia. }
  clear. induction 1 as [t|t e t' evs t'' [visit Hv] _ IH]; intros H0 Hb.
  - cbn. lia.
  - rewrite dispatch_writes in IH. rewrite filter_cons. cbn [length] in Hb.
    pose proof (length_filter (writes_slot k) evs) as Hl.
    destruct (writes_slot k e); case_decide; try done.
    + rewrite wrap_int_id in IH by (unfold is_int; lia).
      rewrite IH by lia. cbn [length]. lia.
    + rewrite IH by lia. done.
Qed.

(** *** Usage per mnemonic *)


Lemma dispatch_GasPerOpcode visit e t name :
  at0 (GasPerOpcode (dispatch visit e t)) name =
  match e with
  | EvState _ op _ cost _ _ =>
      if decide (OpCode_String op = name)
      then u64 (at0 (GasPerOpcode t) name + cost)
      else at0 (GasPerOpcode t) name
  | _ => at0 (GasPerOpcode t) name
  end.
Proof.
  destruct e as [| pc op gas cost scope depth | | | | g | |]; handlers;
    rewrite ?analyzePatterns_spec, ?track_memory_spec; fields; try done.
  rewrite track_operation_GasPerOpcode. fields. rewrite at0_insert.
  case_decide; by subst.
Qed.

Lemma exec_GasPerOpcode t0 evs t name :
  exec t0 evs t ->
  u64 (at0 (GasPerOpcode t) name) =
  u64 (at0 (GasPerOpcode t0) name + foldr Z.add 0 (charge name <$> evs)).
Proof.
  induction 1 as [t|t e t' evs t'' [visit Hv] _ IH].
  - cbn. by rewrite Z.add_0_r.
  - rewrite IH, dispatch_GasPerOpcode. cbn [fmap list_fmap foldr].
    destruct e; cbn [charge]; try (f_equal; lia).
    case_decide; [|f_equal; lia].
    rewrite u64_add_l. f_equal. lia.
Qed.

Lemma exec_GasPerOpcode_range t0 evs t name :
  exec t0 evs t ->
  is_u64 (at0 (GasPerOpcode t0) name) -> is_u64 (at0 (GasPerOpcode t) name).
Proof.
  induction 1 as [t|t e t' evs t'' [visit Hv] _ IH]; [done|].
  intros H0. apply IH. rewrite dispatch_GasPerOpcode.
  destruct e; try done. case_decide; [apply u64_range|done].
Qed.

(** From a new tracer, the usage recorded for a mnemonic is the sum of the
    costs of the steps with that mnemonic, in [uint64] arithmetic; no other
    event touches it. *)
Theorem usage_per_mnemonic evs t name :
  exec NewGasOptimizationTracer evs t ->
  at0 (GasPerOpcode t) name = u64 (foldr Z.add 0 (charge name <$> evs)).
Proof.
  intros Hexec.
  rewrite <- (u64_id (at0 (GasPerOpcode t) name)).
  - rewrite (exec_GasPerOpcode _ _ _ name Hexec). unfold at0 at 1.
    cbn [GasPerOpcode NewGasOptimizationTracer]. by rewrite lookup_empty.
  - apply (exec_GasPerOpcode_range _ _ _ name Hexec).
    unfold at0. cbn [GasPerOpcode NewGasOptimizationTracer].
    rewrite lookup_empty. by compute.
Qed.

(** *** What the streaming Findings are *)

Lemma track_operation_findings pc op opName gas cost scope depth t :
  exists new,
    Optimizations (track_operation Address_Hex pc op opName gas cost scope depth t)
      = Optimizations t ++ new
    /\ Forall (fun o => (exists k c, o = redundant_sload pc k c)
                     \/ (exists to, o = gas_forwarding Address_Hex pc opName to)) new.
Proof.
  unfold track_operation, report.
  destruct op; repeat case_match; fields;
    try (exists []; split; [by rewrite app_nil_r|by constructor]);
    eexists [_]; (split; [reflexivity|]);
    (apply Forall_cons; split; [|by constructor]);
    first [left; eexists _, _; reflexivity | right; eexists; reflexivity].
Qed.

Lemma dispatch_large_memory visit e t :
  memory_size e < 2 ^ 64 ->
  filter (has_type "memory_expansion") (Optimizations (dispatch visit e t)) =
  filter (has_type "memory_expansion") (Optimizations t)
    ++ option_list (large_memory e).
Proof.
  intros Hs.
  destruct e as [| pc op gas cost scope depth | | | | g | |];
    try (handlers; fields; by rewrite app_nil_r).
  - handlers. rewrite track_memory_spec. fields.
    destruct (track_operation_findings pc op (OpCode_String op) gas cost scope depth
                (Assign.GasPerOpcode'
                   (<[OpCode_String op :=
                        u64 (at0 (GasPerOpcode t) (OpCode_String op) + cost)]>
                      (GasPerOpcode t))
                   (Assign.TotalGasUsed' (u64 (TotalGasUsed t + cost))
                      (Assign.Depth' depth (Assign.Gas' gas (Assign.PC' pc t))))))
      as (new & -> & Hnew).
    fields. rewrite !filter_app.
    rewrite (filter_none _ new), app_nil_r.
    + f_equal. unfold memory_findings, large_memory. cbn [memory_size] in Hs.
      rewrite (u64_id (Z.of_nat (length (Memory scope)))) by (unfold is_u64; lia).
      destruct (Z.ltb_spec 0 (Z.of_nat (length (Memory scope)))),
        (Z.ltb_spec 10000 (Z.of_nat (length (Memory scope))));
        cbn [andb option_list]; try done; try lia.
    + eapply Forall_impl; [exact Hnew|].
      intros o [(k & c & ->)|(to & ->)]; unfold has_type; by rewrite bool_decide_false.
  - handlers. rewrite analyzePatterns_spec. fields. rewrite !filter_app.
    rewrite (filter_none _ (hot_opcodes _ _)), (filter_none _ (batch_calls _)).
    + by rewrite !app_nil_r.
    + unfold batch_calls. case_match; repeat constructor.
    + apply Forall_forall. intros o Ho. unfold hot_opcodes in Ho.
      apply list_elem_of_fmap in Ho as (e & -> & _). unfold has_type.
      by rewrite bool_decide_false.
Qed.

(** From a new tracer, the memory-expansion Findings are, in order, one
    for every step whose memory is larger than 10000 bytes, with the exact
    size: every such step adds one, whatever its instruction, and nothing
    is deduplicated; a memory of exactly 10000 bytes adds none. *)
Theorem memory_expansion_every_time evs t :
  exec NewGasOptimizationTracer evs t ->
  Forall (fun e => memory_size e < 2 ^ 64) evs ->
  filter (has_type "memory_expansion") (Optimizations t) = omap large_memory evs.
Proof.
  intros Hexec.
  enough (forall t0 evs t, exec t0 evs t ->
            Forall (fun e => memory_size e < 2 ^ 64) evs ->
            filter (has_type "memory_expansion") (Optimizations t) =
            filter (has_type "memory_expansion") (Optimizations t0)
              ++ omap large_memory evs) as H
    by (intros Hf; by rewrite (H _ _ _ Hexec Hf)).
  clear. induction 1 as [t|t e t' evs t'' [visit Hv] _ IH]; intros Hf.
  - by rewrite app_nil_r.
  - apply Forall_cons in Hf as [He Hf].
    rewrite IH, dispatch_large_memory, <- app_assoc by done. f_equal.
    cbn [omap list_omap]. by destruct (large_memory e).
Qed.

(** *** Expensive operations *)

Lemma dispatch_ExpensiveOps visit e t :
  ExpensiveOps (dispatch visit e t) = ExpensiveOps t ++ option_list (expensive_step e).
Proof.
  destruct e as [| pc op gas cost scope depth | | | | g | |]; handlers;
    rewrite ?analyzePatterns_spec, ?track_memory_spec; fields;
    try by rewrite app_nil_r.
  unfold track_operation, report.
  destruct op; cbn [expensive_step]; repeat case_match; fields;
    cbn [option_list]; by rewrite ?app_nil_r.
Qed.

(** The record of expensive operations grows by exactly the steps that
    are contract creations or self-destructs, logs costing more than 1000
    and hashes costing more than 500, in trace order; a log costing exactly
    1000 or a hash costing exactly 500 is not recorded. *)
Theorem expensive_operations_recorded t evs t' :
  exec t evs t' -> ExpensiveOps t' = ExpensiveOps t ++ omap expensive_step evs.
Proof.
  induction 1 as [t|t e t' evs t'' [visit Hv] _ IH].
  - by rewrite app_nil_r.
  - rewrite IH, dispatch_ExpensiveOps, <- app_assoc. f_equal.
    cbn [omap list_omap]. by destruct (expensive_step e).
Qed.

(** *** Distinct slots *)

Lemma dispatch_dom_reads visit e t :
  dom (StorageReads (dispatch visit e t)) =
  dom (StorageReads t) ∪
    match sload_slot e with Some k => {[k]} | None => ∅ end.
Proof.
  destruct e as [| pc op gas cost scope depth | | | | g | |].
  1, 3-8: handlers; rewrite ?analyzePatterns_spec; fields;
    cbn [sload_slot]; by rewrite union_empty_r_L.
  handlers. rewrite track_memory_spec. fields.
  unfold track_operation, report.
  destruct op; cbn [sload_slot];
    try (repeat case_match; fields; by rewrite union_empty_r_L).
  destruct (Back (Stack scope) 0) as [key|];
    cbn [fmap option_fmap option_map compose].
  - case_match; fields; rewrite dom_insert_L; apply union_comm_L.
  - fields. by rewrite union_empty_r_L.
Qed.

(** From a new tracer, the slots with a read counter are exactly the slots
    that some storage read of the trace resolved, so the [storage_reads]
    number of the report counts distinct slots, not reads. *)
Theorem storage_reads_distinct_slots evs t :
  exec NewGasOptimizationTracer evs t ->
  dom (StorageReads t) = list_to_set (omap sload_slot evs)
  /\ size (StorageReads t) = size (list_to_set (omap sload_slot evs) : gset Hash).
Proof.
  intros Hexec.
  enough (dom (StorageReads t) = list_to_set (omap sload_slot evs)) as H
    by (split; [done|by rewrite <- H, size_dom]).
  enough (forall t0 evs t, exec t0 evs t ->
            dom (StorageReads t) =
            dom (StorageReads t0) ∪ list_to_set (omap sload_slot evs)) as H.
  { rewrite (H _ _ _ Hexec). cbn [StorageReads NewGasOptimizationTracer].
    by rewrite dom_empty_L, union_empty_l_L. }
  clear. induction 1 as [t|t e t' evs t'' [visit Hv] _ IH].
  - cbn [omap list_omap list_to_set]. by rewrite union_empty_r_L.
  - rewrite IH, dispatch_dom_reads. cbn [omap list_omap].
    destruct (sload_slot e); cbn [list_to_set].
    + symmetry. apply (assoc_L (∪)).
    + by rewrite union_empty_r_L.
Qed.

End MoreFacts.

(** ** The further properties on concrete traces *)

Lemma records_append_only_witness :
  exec plain_hex (run plain_hex three_reads NewGasOptimizationTracer)
    (six_calls ++ [EvEnd 64200])
    (run plain_hex (six_calls ++ [EvEnd 64200])
       (run plain_hex three_reads NewGasOptimizationTracer))
  /\ Optimizations (run plain_hex three_reads NewGasOptimizationTracer)
       `prefix_of`
     Optimizations (run plain_hex (six_calls ++ [EvEnd 64200])
                      (run plain_hex three_reads NewGasOptimizationTracer)).
Proof.
  split; [apply exec_run|].
  apply (records_append_only plain_hex _ (six_calls ++ [EvEnd 64200])), exec_run.
Defined.

Lemma nested_frames_restore_depth_witness :
  nested nested_frames
  /\ is_int (Depth NewGasOptimizationTracer)
  /\ Depth (run plain_hex nested_frames NewGasOptimizationTracer)
     = Depth NewGasOptimizationTracer.
Proof.
  assert (nested nested_frames) as Hn.
  { apply (nested_frame [EvEnter; EvExit 100] 300 [EvEnter; EvExit 50]).
    - apply (nested_frame [] 100 []); constructor.
    - apply (nested_frame [] 50 []); constructor. }
  assert (is_int (Depth NewGasOptimizationTracer)) as Hi
    by (split; vm_compute; congruence).
  split; [exact Hn|]. split; [exact Hi|].
  apply (nested_frames_restore_depth plain_hex nested_frames Hn _ _ Hi), exec_run.
Defined.

Lemma storage_writes_counted_witness :
  exec plain_hex NewGasOptimizationTracer three_reads
    (run plain_hex three_reads NewGasOptimizationTracer)
  /\ Z.of_nat (length three_reads) < 2 ^ 63
  /\ at0 (StorageWrites (run plain_hex three_reads NewGasOptimizationTracer)) slot_1234
     = Z.of_nat (length (filter (writes_slot slot_1234) three_reads)).
Proof.
  split; [apply exec_run|]. split; [vm_compute; reflexivity|].
  apply (storage_writes_counted plain_hex three_reads); [apply exec_run|].
  vm_compute. reflexivity.
Defined.

Lemma usage_per_mnemonic_witness :
  exec plain_hex NewGasOptimizationTracer three_reads
    (run plain_hex three_reads NewGasOptimizationTracer)
  /\ at0 (GasPerOpcode (run plain_hex three_reads NewGasOptimizationTracer)) "SLOAD"
     = u64 (foldr Z.add 0 (charge "SLOAD" <$> three_reads)).
Proof.
  split; [apply exec_run|].
  apply (usage_per_mnemonic plain_hex three_reads), exec_run.
Defined.

Example three_reads_usage :
  at0 (GasPerOpcode (run plain_hex three_reads NewGasOptimizationTracer)) "SLOAD" = 4400
  /\ at0 (GasPerOpcode (run plain_hex three_reads NewGasOptimizationTracer)) "SSTORE" = 5000
  /\ at0 (GasPerOpcode (run plain_hex three_reads NewGasOptimizationTracer)) "CALL" = 0.
Proof. repeat split; vm_compute; reflexivity. Qed.

Lemma memory_expansion_every_time_witness :
  exec plain_hex NewGasOptimizationTracer memory_steps
    (run plain_hex memory_steps NewGasOptimizationTracer)
  /\ Forall (fun e => memory_size e < 2 ^ 64) memory_steps
  /\ filter (has_type "memory_expansion")
       (Optimizations (run plain_hex memory_steps NewGasOptimizationTracer))
     = omap large_memory memory_steps.
Proof.
  assert (Forall (fun e => memory_size e < 2 ^ 64) memory_steps) as Hf
    by (repeat constructor).
  split; [apply exec_run|]. split; [exact Hf|].
  apply (memory_expansion_every_time plain_hex memory_steps); [apply exec_run|exact Hf].
Defined.

Example memory_steps_findings :
  (fun o => (Location o, Details o !! "memory_size"))
    <$> Optimizations (run plain_hex memory_steps NewGasOptimizationTracer)
  = [ ("0x02", Some (VUint64 10001)); ("0x03", Some (VUint64 20000)) ].
Proof. vm_compute. reflexivity. Qed.

Lemma expensive_operations_recorded_witness :
  exec plain_hex NewGasOptimizationTracer costly_steps
    (run plain_hex costly_steps NewGasOptimizationTracer)
  /\ ExpensiveOps (run plain_hex costly_steps NewGasOptimizationTracer)
     = ExpensiveOps NewGasOptimizationTracer ++ omap expensive_step costly_steps.
Proof.
  split; [apply exec_run|].
  apply (expensive_operations_recorded plain_hex _ costly_steps), exec_run.
Defined.

Example costly_steps_recorded :
  (fun o => (eo_PC o, eo_Op o, eo_Gas o))
    <$> ExpensiveOps (run plain_hex costly_steps NewGasOptimizationTracer)
  = [ (2, "LOG2", 1001); (4, "KECCAK256", 501); (5, "CREATE2", 32000) ].
Proof. vm_compute. reflexivity. Qed.

Lemma storage_reads_distinct_slots_witness :
  exec plain_hex NewGasOptimizationTracer three_reads
    (run plain_hex three_reads NewGasOptimizationTracer)
  /\ dom (StorageReads (run plain_hex three_reads NewGasOptimizationTracer))
     = list_to_set (omap sload_slot three_reads)
  /\ size (StorageReads (run plain_hex three_reads NewGasOptimizationTracer))
     = size (list_to_set (omap sload_slot three_reads) : gset Hash).
Proof.
  split; [apply exec_run|].
  apply (storage_reads_distinct_slots plain_hex three_reads), exec_run.
Defined.

Example three_reads_two_slots :
  size (StorageReads (run plain_hex three_reads NewGasOptimizationTracer)) = 2%nat.
Proof. vm_compute. reflexivity. Qed.

(** ** Bytes *)

Module BytesFacts.

Lemma byte_of_Z_value z : Z.of_N (Byte.to_N (byte_of_Z z)) = z mod 256.
Proof.
  unfold byte_of_Z.
  pose proof (Z.mod_pos_bound z 256 ltac:(lia)) as Hm.
  destruct (Byte.of_N (Z.to_N (z mod 256))) as [b|] eqn:Hb.
  - apply Byte.to_of_N in Hb. unfold default. cbn [from_option id]. rewrite Hb. lia.
  - apply Byte.of_N_None_iff in Hb. lia.
Qed.

Lemma length_be_bytes n z : length (be_bytes n z) = n.
Proof. induction n as [|n IH]; cbn [be_bytes length]; congruence. Qed.

Lemma be_value_be_bytes n z : be_value (be_bytes n z) = z mod 256 ^ Z.of_nat n.
Proof.
  induction n as [|n IH]; cbn [be_bytes be_value].
  - by rewrite Z.pow_0_r, Z.mod_1_r.
  - rewrite IH, length_be_bytes, byte_of_Z_value.
    rewrite Z.shiftr_div_pow2 by lia.
    replace (2 ^ (8 * Z.of_nat n)) with (256 ^ Z.of_nat n)
      by (change 256 with (2 ^ 8); rewrite <- Z.pow_mul_r by lia; done).
    replace (Z.of_nat (S n)) with (Z.of_nat n + 1) by lia.
    rewrite Z.pow_add_r, Z.pow_1_r by lia.
    rewrite Z.rem_mul_r by lia. lia.
Qed.

Lemma strip_zeros_cons x b :
  strip_zeros (x :: b) = if decide (x = x00) then strip_zeros b else x :: b.
Proof. destruct x; reflexivity. Qed.

Lemma be_value_strip_zeros b : be_value (strip_zeros b) = be_value b.
Proof.
  induction b as [|x b IH]; [done|].
  rewrite strip_zeros_cons. case_decide; [subst; cbn [be_value]|done].
  rewrite IH. change (Z.of_N (Byte.to_N "000")) with 0. lia.
Qed.

Lemma length_strip_zeros b : (length (strip_zeros b) <= length b)%nat.
Proof.
  induction b as [|x b IH]; [done|].
  rewrite strip_zeros_cons. case_decide; cbn [length]; lia.
Qed.

Lemma pad_strip_zeros b :
  replicate (length b - length (strip_zeros b)) x00 ++ strip_zeros b = b.
Proof.
  induction b as [|x b IH]; [done|].
  rewrite strip_zeros_cons. case_decide.
  - subst. pose proof (length_strip_zeros b).
    replace (length ("000"%byte :: b) - length (strip_zeros b))%nat
      with (S (length b - length (strip_zeros b))) by (cbn [length]; lia).
    cbn [replicate app]. by rewrite IH.
  - by rewrite Nat.sub_diag.
Qed.

Lemma set_bytes_strip_zeros n b :
  length b = n -> set_bytes n (strip_zeros b) = b.
Proof.
  intros <-. unfold set_bytes. pose proof (length_strip_zeros b).
  replace (length (strip_zeros b) - length b)%nat with 0%nat by lia.
  rewrite drop_0. apply pad_strip_zeros.
Qed.

Lemma length_set_bytes n b : length (set_bytes n b) = n.
Proof.
  unfold set_bytes. rewrite length_app, length_replicate, length_drop. lia.
Qed.

Lemma BytesToHash_uint256 z : BytesToHash (uint256_Bytes z) = be_bytes 32 z.
Proof.
  unfold BytesToHash, uint256_Bytes.
  apply set_bytes_strip_zeros, length_be_bytes.
Qed.

End BytesFacts.
Export BytesFacts.

(** The key under which a storage slot is counted is canonical and of
    fixed width: for a 256-bit word [z] it is the 32 bytes of [z], most
    significant first, so it denotes [z] again and two words share a key
    only if they are equal. *)
Theorem slot_key_canonical z1 z2 :
  0 <= z1 < 2 ^ 256 -> 0 <= z2 < 2 ^ 256 ->
  length (BytesToHash (uint256_Bytes z1)) = 32%nat
  /\ be_value (BytesToHash (uint256_Bytes z1)) = z1
  /\ (BytesToHash (uint256_Bytes z1) = BytesToHash (uint256_Bytes z2) -> z1 = z2).
Proof.
  intros H1 H2. rewrite !BytesToHash_uint256.
  assert (forall z, 0 <= z < 2 ^ 256 -> be_value (be_bytes 32 z) = z) as Hv.
  { intros z Hz. rewrite be_value_be_bytes.
    change (256 ^ Z.of_nat 32) with (2 ^ 256). by apply Z.mod_small. }
  split; [apply length_be_bytes|]. split; [by apply Hv|].
  intros H. by rewrite <- (Hv z1), <- (Hv z2), H.
Qed.

(** [formatPC] renders a program counter below [2^63] as the hexadecimal
    digits of its bytes, which denote it again; from [2^63] on, the
    conversion to [int64] makes it negative and the digits are those of
    [2^64 - pc]. *)
Theorem formatPC_value pc :
  is_u64 pc ->
  location_value (formatPC pc) = if pc <? 2 ^ 63 then pc else 2 ^ 64 - pc.
Proof.
  intros [H0 H1]. unfold formatPC, bigInt_Bytes.
  change (location_value ("0x" +:+ ?s)) with (be_value (Hex2Bytes s)).
  rewrite Hex2Bytes_Bytes2Hex, be_value_strip_zeros.
  rewrite be_value_be_bytes. change (256 ^ Z.of_nat 8) with (2 ^ 64).
  pose proof (wrap_int_range pc) as [Hw1 Hw2].
  rewrite Z.mod_small by lia.
  destruct (Z.ltb_spec pc (2 ^ 63)).
  - rewrite wrap_int_id by (unfold is_int; lia). lia.
  - unfold wrap_int in *.
    replace ((pc + 2 ^ 63) mod 2 ^ 64) with (pc + 2 ^ 63 - 2 ^ 64) in *; [lia|].
    apply Z.mod_unique with 1; lia.
Qed.

(** The table of [TestFormatPC]. *)
Example TestFormatPC :
  formatPC 0 = "0x" /\ formatPC 42 = "0x2a"
  /\ formatPC 255 = "0xff" /\ formatPC 256 = "0x0100".
Proof. repeat split; vm_compute; reflexivity. Qed.

Lemma slot_key_canonical_witness :
  (0 <= 0x1234 < 2 ^ 256) /\ (0 <= 0x99 < 2 ^ 256)
  /\ length (BytesToHash (uint256_Bytes 0x1234)) = 32%nat
  /\ be_value (BytesToHash (uint256_Bytes 0x1234)) = 0x1234
  /\ (BytesToHash (uint256_Bytes 0x1234) = BytesToHash (uint256_Bytes 0x99)
      -> 0x1234 = 0x99).
Proof.
  assert (0 <= 0x1234 < 2 ^ 256) as H1 by (split; vm_compute; congruence).
  assert (0 <= 0x99 < 2 ^ 256) as H2 by (split; vm_compute; congruence).
  split; [exact H1|]. split; [exact H2|].
  exact (slot_key_canonical 0x1234 0x99 H1 H2).
Defined.

Lemma formatPC_value_witness :
  is_u64 (2 ^ 64 - 1)
  /\ location_value (formatPC (2 ^ 64 - 1))
     = if 2 ^ 64 - 1 <? 2 ^ 63 then 2 ^ 64 - 1 else 2 ^ 64 - (2 ^ 64 - 1).
Proof.
  assert (is_u64 (2 ^ 64 - 1)) as H by (split; vm_compute; congruence).
  split; [exact H|]. exact (formatPC_value (2 ^ 64 - 1) H).
Defined.

Example formatPC_collision : formatPC (2 ^ 64 - 1) = formatPC 1.
Proof. vm_compute. reflexivity. Qed.

(** ** When the report can be written *)

Module ReportFacts.
Import Encode EncodeFacts.

Lemma traverse_inl_iff {A B} (f : A -> result B) l :
  (exists bs, traverse f l = inl bs) <-> Forall (fun a => exists b, f a = inl b) l.
Proof.
  induction l as [|a l IH]; cbn [traverse].
  - split; [constructor|eauto].
  - rewrite Forall_cons, <- IH. destruct (f a) as [b|e]; cbn [bind].
    + destruct (traverse f l) as [bs|e]; cbn [bind].
      * split; eauto.
      * split; [intros [? [=]]|intros [_ [? [=]]]].
    + split; [intros [? [=]]|intros [[? [=]] _]].
Qed.

Lemma object_inl_iff {V} (enc : V -> result Json) (m : gmap string V) :
  (exists j, object enc m = inl j)
  <-> forall k v, m !! k = Some v -> exists j, enc v = inl j.
Proof.
  unfold object.
  transitivity (exists bs,
    traverse (fun kv => bind (enc kv.2) (fun j => inl (kv.1, j))) (sorted_entries m)
    = inl bs).
  - destruct (traverse _ (sorted_entries m)); cbn [bind];
      split; eauto; intros [? [=]].
  - rewrite traverse_inl_iff, Forall_forall. split.
    + intros H k v Hk. destruct (H (k, v)) as [[k' j] Hj];
        [by apply sorted_entries_elem|].
      cbn [fst snd] in Hj. destruct (enc v); [eauto|done].
    + intros H [k v] Hk. unfold sorted_entries in Hk.
      rewrite merge_sort_Permutation in Hk. apply elem_of_map_to_list in Hk.
      destruct (H k v Hk) as [j Hj]. cbn [fst snd]. rewrite Hj. cbn. eauto.
Qed.

Lemma optimization_inl_iff o :
  (exists j, optimization o = inl j) <-> encodable o.
Proof.
  unfold optimization, encodable.
  transitivity (exists j, object value (Details o) = inl j).
  - destruct (object value (Details o)); cbn [bind];
      split; eauto; intros [? [=]].
  - rewrite object_inl_iff. split.
    + intros H k f Hk. destruct (H k _ Hk) as [j Hj]. cbn in Hj.
      by destruct (f64_finite f).
    + intros H k v Hk. destruct v as [s|n|n|f]; cbn; eauto.
      rewrite (H k f Hk). eauto.
Qed.

End ReportFacts.
Import ReportFacts.

(** [GetReport] returns a document exactly when every float among the
    details of the recorded Findings is finite; otherwise it returns the
    encoder's error, whatever else the tracer holds. *)
Theorem GetReport_succeeds_iff t :
  (exists doc, GetReport t = inl doc) <-> Forall encodable (Optimizations t).
Proof.
  pose proof (EncodeFacts.GetReport_cases t) as Hr.
  rewrite <- (Forall_iff _ _ _ optimization_inl_iff), <- traverse_inl_iff.
  destruct (Encode.traverse Encode.optimization (Optimizations t)) as [items|e].
  - destruct Hr as [gas Hr]. split; eauto.
  - rewrite Hr. split; intros [? [=]].
Qed.

Section Streaming.
Variable Address_Hex : Address -> string.
Abbreviation dispatch := (dispatch Address_Hex).
Abbreviation exec := (exec Address_Hex).

Lemma encodable_redundant_sload pc k c : encodable (redundant_sload pc k c).
Proof.
  intros key f. unfold redundant_sload. cbn [Details].
  rewrite lookup_insert. case_decide; [done|].
  rewrite lookup_singleton. by case_decide.
Qed.

Lemma encodable_gas_forwarding pc opName to :
  encodable (gas_forwarding Address_Hex pc opName to).
Proof.
  intros key f. unfold gas_forwarding. cbn [Details].
  rewrite lookup_insert. case_decide; [done|].
  rewrite lookup_singleton. by case_decide.
Qed.

Lemma encodable_memory_expansion pc size : encodable (memory_expansion pc size).
Proof.
  intros key f. unfold memory_expansion. cbn [Details].
  rewrite lookup_singleton. by case_decide.
Qed.

Lemma encodable_multiple_calls n : encodable (multiple_calls n).
Proof.
  intros key f. unfold multiple_calls. cbn [Details].
  rewrite lookup_singleton. by case_decide.
Qed.

Lemma dispatch_encodable visit e t :
  is_end e = false ->
  Forall encodable (Optimizations t) ->
  Forall encodable (Optimizations (dispatch visit e t)).
Proof.
  intros He Ht.
  destruct e as [| pc op gas cost scope depth | | | | g | |]; try done;
    try (handlers; by fields).
  handlers. rewrite track_memory_spec. fields.
  match goal with
  | |- context [track_operation _ ?pc ?op ?n ?g ?c ?s ?d ?t0] =>
      destruct (track_operation_findings Address_Hex pc op n g c s d t0)
        as (new & -> & Hnew)
  end.
  fields. rewrite !Forall_app. split; [split; [done|]|].
  - eapply Forall_impl; [exact Hnew|].
    intros o [(k & c & ->)|(to & ->)];
      auto using encodable_redundant_sload, encodable_gas_forwarding.
  - unfold memory_findings. case_match; repeat constructor.
    apply encodable_memory_expansion.
Qed.

(** As long as no [CaptureEnd] has run, the report can be written: from a
    new tracer, after any sequence of the other events, [GetReport] returns
    a document (the partial snapshot), never an error. *)
Theorem report_before_end evs t :
  exec NewGasOptimizationTracer evs t ->
  Forall (fun e => is_end e = false) evs ->
  exists doc, GetReport t = inl doc.
Proof.
  intros Hexec Hevs. apply GetReport_succeeds_iff.
  enough (forall t0 evs t, exec t0 evs t ->
            Forall (fun e => is_end e = false) evs ->
            Forall encodable (Optimizations t0) ->
            Forall encodable (Optimizations t)) as H
    by (apply (H _ _ _ Hexec Hevs); constructor).
  clear. induction 1 as [t|t e t' evs t'' [visit Hv] _ IH]; intros Hevs Ht; [done|].
  apply Forall_cons in Hevs as [He Hevs].
  apply IH; [done|]. by apply dispatch_encodable.
Qed.

End Streaming.

(** ** What the report holds *)

Module DocumentFacts.
Import Encode EncodeFacts.

#[global] Instance key_le_total {V} : Total (@key_le V).
Proof.
  intros [k1 v1] [k2 v2]. unfold key_le. cbn [fst].
  destruct (String.leb_total k1 k2) as [H|H]; rewrite H; [by left|by right].
Qed.

Lemma traverse_pure {A B} (g : A -> B) l :
  traverse (fun a => inl (g a)) l = inl (g <$> l).
Proof. induction l as [|a l IH]; cbn [traverse bind fmap list_fmap]; [done|]. by rewrite IH. Qed.

Lemma object_numbers (m : gmap string Z) :
  object (fun n => inl (JNumber n)) m =
  inl (JObject ((fun kv => (kv.1, JNumber kv.2)) <$> sorted_entries m)).
Proof.
  unfold object. cbn [bind].
  by rewrite (traverse_pure (fun kv : string * Z => (kv.1, JNumber kv.2))).
Qed.

Lemma traverse_Forall2 {A B} (f : A -> result B) l bs :
  traverse f l = inl bs -> Forall2 (fun a b => f a = inl b) l bs.
Proof.
  revert bs. induction l as [|a l IH]; intros bs; cbn [traverse].
  - intros [= <-]. constructor.
  - destruct (f a) as [b|e] eqn:Ha; cbn [bind]; [|done].
    destruct (traverse f l) as [bs'|e]; cbn [bind]; [|done].
    intros [= <-]. constructor; auto.
Qed.

End DocumentFacts.
Import DocumentFacts.

(** In a report, [gas_by_opcode] lists every mnemonic of the usage map
    once, with its usage, the mnemonics in ascending byte order: the same
    map always gives the same list. *)
Theorem report_gas_by_opcode t doc :
  GetReport t = inl doc ->
  member "gas_by_opcode" doc =
    Some (JObject ((fun kv => (kv.1, JNumber kv.2))
                     <$> Encode.sorted_entries (GasPerOpcode t)))
  /\ Encode.sorted_entries (GasPerOpcode t) ≡ₚ map_to_list (GasPerOpcode t)
  /\ Sorted Encode.key_le (Encode.sorted_entries (GasPerOpcode t)).
Proof.
  intros H. split; [|split].
  - unfold GetReport, MarshalIndent, report_map, Encode.object in H.
    rewrite EncodeFacts.sorted_report in H.
    cbn [Encode.traverse Encode.bind encode_report_value fst snd] in H.
    rewrite object_numbers in H. cbn [Encode.bind] in H.
    destruct (Encode.traverse Encode.optimization (Optimizations t));
      cbn [Encode.bind] in H; [|done].
    injection H as <-. reflexivity.
  - apply merge_sort_Permutation.
  - apply (Sorted_merge_sort Encode.key_le).
Qed.

(** In a report, [optimizations] lists the recorded Findings in the order
    in which they were recorded, each as an object whose fields are, in
    this order, Type, Severity, Description, Location, GasSavings and
    Details, with the values of the Finding. *)
Theorem report_optimizations t doc :
  GetReport t = inl doc ->
  exists items,
    member "optimizations" doc = Some (JArray items)
    /\ Forall2
         (fun o j =>
            field_names j =
              ["Type"; "Severity"; "Description"; "Location"; "GasSavings"; "Details"]
            /\ member "Type" j = Some (JString (Type_ o))
            /\ member "Severity" j = Some (JString (Severity o))
            /\ member "Description" j = Some (JString (Description o))
            /\ member "Location" j = Some (JString (Location o))
            /\ member "GasSavings" j = Some (JNumber (GasSavings o)))
         (Optimizations t) items.
Proof.
  intros H.
  unfold GetReport, MarshalIndent, report_map, Encode.object in H.
  rewrite EncodeFacts.sorted_report in H.
  cbn [Encode.traverse Encode.bind encode_report_value fst snd] in H.
  rewrite object_numbers in H. cbn [Encode.bind] in H.
  destruct (Encode.traverse Encode.optimization (Optimizations t)) as [items|]
    eqn:Hitems; cbn [Encode.bind] in H; [|done].
  injection H as <-. exists items. split; [reflexivity|].
  apply traverse_Forall2 in Hitems.
  eapply Forall2_impl; [exact Hitems|].
  intros o j Hj. unfold Encode.optimization in Hj.
  destruct (Encode.object Encode.value (Details o)); cbn [Encode.bind] in Hj; [|done].
  injection Hj as <-. repeat split; reflexivity.
Qed.

Lemma report_before_end_witness :
  exec plain_hex NewGasOptimizationTracer (three_reads ++ six_calls)
    (run plain_hex (three_reads ++ six_calls) NewGasOptimizationTracer)
  /\ Forall (fun e => is_end e = false) (three_reads ++ six_calls)
  /\ exists doc,
       GetReport (run plain_hex (three_reads ++ six_calls) NewGasOptimizationTracer)
       = inl doc.
Proof.
  assert (Forall (fun e => is_end e = false) (three_reads ++ six_calls)) as Hf
    by (repeat constructor).
  split; [apply exec_run|]. split; [exact Hf|].
  apply (report_before_end plain_hex (three_reads ++ six_calls)); [apply exec_run|exact Hf].
Defined.

Lemma report_gas_by_opcode_witness :
  exists doc,
    GetReport (run plain_hex three_reads NewGasOptimizationTracer) = inl doc
    /\ member "gas_by_opcode" doc =
       Some (JObject ((fun kv => (kv.1, JNumber kv.2))
               <$> Encode.sorted_entries
                     (GasPerOpcode (run plain_hex three_reads NewGasOptimizationTracer)))).
Proof.
  assert (exists doc,
            GetReport (run plain_hex three_reads NewGasOptimizationTracer) = inl doc)
    as [doc H] by (vm_compute; eexists; reflexivity).
  exists doc. split; [exact H|].
  exact (proj1 (report_gas_by_opcode _ _ H)).
Defined.

Example three_reads_gas_by_opcode :
  (fun kv => (kv.1, JNumber kv.2))
    <$> Encode.sorted_entries
          (GasPerOpcode (run plain_hex three_reads NewGasOptimizationTracer))
  = [ ("SLOAD", JNumber 4400); ("SSTORE", JNumber 5000) ].
Proof. vm_compute. reflexivity. Qed.

Lemma report_optimizations_witness :
  exists doc,
    GetReport (run plain_hex three_reads NewGasOptimizationTracer) = inl doc
    /\ exists items,
         member "optimizations" doc = Some (JArray items)
         /\ length items
            = length (Optimizations (run plain_hex three_reads NewGasOptimizationTracer)).
Proof.
  assert (exists doc,
            GetReport (run plain_hex three_reads NewGasOptimizationTracer) = inl doc)
    as [doc H] by (vm_compute; eexists; reflexivity).
  exists doc. split; [exact H|].
  destruct (report_optimizations _ _ H) as (items & Hm & Hf).
  exists items. split; [exact Hm|]. symmetry. exact (Forall2_length _ _ _ Hf).
Defined.

(** ** How an event changes each aggregate *)

Section Aggregates.
Variable Address_Hex : Address -> string.
Abbreviation dispatch := (dispatch Address_Hex).
Abbreviation step := (step Address_Hex).
Abbreviation exec := (exec Address_Hex).
Abbreviation run := (run Address_Hex).

Ltac by_cases :=
  handlers; rewrite ?analyzePatterns_spec, ?track_memory_spec; fields;
  rewrite ?app_nil_r; try done;
  unfold track_operation, report;
  match goal with
  | op : OpCode |- _ => destruct op
  end;
  repeat case_match; fields; rewrite ?app_nil_r; try done.



Lemma dispatch_MemoryOps visit e t :
  MemoryOps (dispatch visit e t) = MemoryOps t ++ option_list (memory_step e).
Proof.
  destruct e as [| pc op gas cost scope depth | | | | g | |];
    cbn [memory_step option_list option_rect]; solve [by_cases].
Qed.





(** *** Two runs of one trace *)




(** *** Calls and memory operations *)




(** Every MLOAD, MSTORE and MSTORE8 step, and no other event, appends a
    record of a memory operation, with the size of the memory at that
    step. *)
Theorem memory_operations_recorded t evs t' :
  exec t evs t' -> MemoryOps t' = MemoryOps t ++ omap memory_step evs.
Proof.
  induction 1 as [t|t e t' evs t'' [visit Hv] _ IH].
  - by rewrite app_nil_r.
  - rewrite IH, dispatch_MemoryOps, <- app_assoc. cbn [omap list_omap].
    by destruct (memory_step e).
Qed.

End Aggregates.




Example full_forwarding_is_flagged :
  (fun o => (Type_ o, Severity o, GasSavings o, Details o !! "call_type"))
    <$> Optimizations
          (run plain_hex
             [ EvState 9 CALL 6400 700 (call_scope 0xaa 6300) 1;
               EvState 10 CALL 6400 700 (call_scope 0xaa (2 ^ 64 + 6300)) 1;
               EvState 11 CALL 6400 700 (call_scope 0xaa 6299) 1 ]
             NewGasOptimizationTracer)
  = [ ("gas_forwarding", "low", 0, Some (VString "CALL"));
      ("gas_forwarding", "low", 0, Some (VString "CALL")) ].
Proof. vm_compute. reflexivity. Qed.

Lemma memory_operations_recorded_witness :
  exec plain_hex NewGasOptimizationTracer memory_steps
    (run plain_hex memory_steps NewGasOptimizationTracer)
  /\ MemoryOps (run plain_hex memory_steps NewGasOptimizationTracer)
     = MemoryOps NewGasOptimizationTracer ++ omap memory_step memory_steps.
Proof.
  split; [apply exec_run|].
  apply (memory_operations_recorded plain_hex _ memory_steps), exec_run.
Defined.
